(** * The embedding service of [python_service/app.py]

    A shallow embedding of the FastAPI application: the module-level
    globals, the lazy model loader [_load_model], the start-up hook and the
    four routes.  Python's exceptions and the two mutable globals [MODEL]
    and [PREPROCESS] are threaded through a small state-and-exception
    monad; every call that leaves the module (open_clip, torch, PIL, the
    upload object, the standard streams) is recorded in a trace, so that
    statements such as "the load is not executed again" or "the model is
    never invoked" are statements about that trace. *)

From Stdlib Require Import List String Ascii Strings.Byte Bool Arith ZArith Lia.
From Stdlib Require Import DecimalString.
From Stdlib Require Import Floats.SpecFloat.
From Stdlib Require Import QArith Qpower Lqa.
Close Scope Q_scope.
Import ListNotations.
Local Open Scope string_scope.
Local Open Scope list_scope.

(** ** Python values that cross the module boundary *)

Definition bytes := list byte.

(** Exceptions.  [HTTPException] is the FastAPI class the handlers raise;
    [Exception] stands for every other exception class, of which the code
    only ever uses the message ([str(e)] inside an f-string). *)
Inductive Exn : Type :=
| Exception (msg : string)
| HTTPException (status_code : nat) (detail : string).

Definition str (e : Exn) : string :=
  match e with
  | Exception msg => msg
  | HTTPException status_code detail =>
      (NilEmpty.string_of_uint (Nat.to_uint status_code) ++ ": " ++ detail)%string
  end.

(** The result of running a piece of Python: it returns or it raises. *)
Inductive Outcome (A : Type) : Type :=
| Returned (a : A)
| Raised (e : Exn).
Arguments Returned {A} a.
Arguments Raised {A} e.

(** IEEE-754 binary32, the dtype of the feature tensor and of
    [np.float32]: the specification floats of the standard library at
    precision 24 and maximal exponent 128. *)
Definition float32 : Type := spec_float.
Definition float32_div : float32 -> float32 -> float32 := SFdiv 24 128.

Definition is_zero (x : float32) : bool :=
  match x with S754_zero _ => true | _ => false end.
Definition is_nan (x : float32) : bool :=
  match x with S754_nan => true | _ => false end.
Definition is_infinity (x : float32) : bool :=
  match x with S754_infinity _ => true | _ => false end.

(** ** Binary32 values as rational numbers

    The tolerance of a norm is a statement about real numbers, so the
    finite binary32 values are read as rationals: a sign, a mantissa and
    a power of two. *)

Definition pow2 (e : Z) : Q := Qpower (2 # 1) e.

(** The rational number a binary32 value stands for; the infinities and
    NaN stand for none and are kept apart by [is_finite]. *)
Definition value (x : float32) : Q :=
  match x with
  | S754_finite s m e => inject_Z (cond_Zopp s (Z.pos m)) * pow2 e
  | _ => 0
  end.

Definition is_finite (x : float32) : bool :=
  match x with
  | S754_zero _ | S754_finite _ _ _ => true
  | _ => false
  end.

Definition square (q : Q) : Q := q * q.

Fixpoint sum_squares (v : list float32) : Q :=
  match v with
  | [] => 0
  | x :: rest => square (value x) + sum_squares rest
  end.

(** The Euclidean norm of [v] is within [tol] of 1, for a tolerance
    between 0 and 1: every component is a number and the sum of the
    squares lies between [(1 - tol)^2] and [(1 + tol)^2]. *)
Definition unit_norm (tol : Q) (v : list float32) : bool :=
  forallb is_finite v
  && Qle_bool (square (1 - tol)) (sum_squares v)
  && Qle_bool (sum_squares v) (square (1 + tol)).

Definition is_positive_finite (x : float32) : bool :=
  match x with S754_finite false _ _ => true | _ => false end.

(** What [feats.norm] is expected to return: for features that are
    numbers, a positive number within relative error [delta] of their
    Euclidean norm. *)
Definition accurate_norm (delta : Q) (feats : list float32) (n : float32)
    : bool :=
  forallb is_finite feats
  && is_positive_finite n
  && Qle_bool (square (1 - delta) * sum_squares feats) (square (value n))
  && Qle_bool (square (value n)) (square (1 + delta) * sum_squares feats).

(** Half a unit in the last place of binary32, relative and absolute. *)
Definition half_ulp : Q := pow2 (-24).
Definition half_tiny : Q := pow2 (-150).

(** [tol] leaves room for the error [delta] of the norm and for the
    rounding of [dim] divisions. *)
Definition within_budget (tol delta : Q) (dim : nat) : bool :=
  Qle_bool 0 delta && Qle_bool delta (1 # 2)
  && Qle_bool 0 tol && Qle_bool tol 1
  && Qle_bool
       (square (1 + half_ulp)
        + 9 * inject_Z (Z.of_nat dim) * half_tiny * square (1 - delta))
       (square (1 + tol) * square (1 - delta))
  && Qle_bool
       (square (1 - tol) * square (1 + delta))
       (square (1 - half_ulp)
        - 4 * inject_Z (Z.of_nat dim) * half_tiny * square (1 + delta)).

(** The exact value [v] lies in the slot from [m * P] to [(m + 1) * P]
    at the place [l] names: on its lower end, below, at or above its
    middle.  This is how the rounding of a quotient keeps track of the
    bits it has cut. *)
Definition inbetween (P : Q) (m : Z) (l : location) (v : Q) : Prop :=
  (match l with
   | loc_Exact => v == inject_Z m * P
   | loc_Inexact Lt => inject_Z m * P < v /\ 2 * (v - inject_Z m * P) < P
   | loc_Inexact Eq => 2 * (v - inject_Z m * P) == P
   | loc_Inexact Gt => P < 2 * (v - inject_Z m * P) /\ v < (inject_Z m + 1) * P
   end)%Q.

(** The error of one rounding to nearest: half a unit in the last place,
    which is at most [2^-24] of the value, or [2^-150] below the normal
    range. *)
Definition close_to (val v : Q) : Prop :=
  (- (half_ulp * v + half_tiny) <= val - v <= half_ulp * v + half_tiny)%Q.

(** A PIL image, as far as this service looks at it. *)
Record Image : Type := mkImage {
  mode : string;
  size : nat * nat;
  pixels : bytes
}.

(** [Image.getbands()], by PIL's table of modes (a mode PIL does not
    know has no bands here; PIL raises for it). *)
Definition getbands (m : string) : list string :=
  if String.eqb m "1" then ["1"]
  else if String.eqb m "L" then ["L"]
  else if String.eqb m "P" then ["P"]
  else if String.eqb m "RGB" then ["R"; "G"; "B"]
  else if String.eqb m "RGBA" then ["R"; "G"; "B"; "A"]
  else if String.eqb m "CMYK" then ["C"; "M"; "Y"; "K"]
  else if String.eqb m "YCbCr" then ["Y"; "Cb"; "Cr"]
  else if String.eqb m "LAB" then ["L"; "A"; "B"]
  else if String.eqb m "HSV" then ["H"; "S"; "V"]
  else if String.eqb m "I" then ["I"]
  else if String.eqb m "F" then ["F"]
  else if String.eqb m "RGBX" then ["R"; "G"; "B"; "X"]
  else if String.eqb m "RGBa" then ["R"; "G"; "B"; "a"]
  else if String.eqb m "LA" then ["L"; "A"]
  else if String.eqb m "La" then ["L"; "a"]
  else if String.eqb m "PA" then ["P"; "A"]
  else if String.eqb m "I;16" then ["I"]
  else if String.eqb m "I;16L" then ["I"]
  else if String.eqb m "I;16B" then ["I"]
  else if String.eqb m "I;16N" then ["I"]
  else if String.eqb m "BGR;15" then ["B"; "G"; "R"]
  else if String.eqb m "BGR;16" then ["B"; "G"; "R"]
  else if String.eqb m "BGR;24" then ["B"; "G"; "R"]
  else [].

Definition channels (img : Image) : nat := List.length (getbands (mode img)).

(** The multipart upload handed to [embed]: [await image.read()]. *)
Record UploadFile : Type := mkUpload {
  read : Outcome bytes
}.

(** JSON bodies.  One constructor per dictionary shape the module builds,
    plus the two bodies FastAPI itself produces for exceptions. *)
Inductive Body : Type :=
| HealthBody (ok : bool) (model pretrained device : string)
| ModelsBody (table : list (string * string))
| ConfigBody (MODEL_NAME PRETRAINED DEVICE : string)
| EmbedBody (embedding : list float32) (dim : Z) (model pretrained : string)
| DetailBody (detail : string)
| InternalServerError.

Record Response : Type := mkResponse {
  status : nat;
  body : Body
}.

(** ** The trace of calls leaving the module *)

Inductive Stream : Type := stdout | stderr.

Inductive Event : Type :=
| Printed (file : Stream) (msg : string)
| CreateModel (name pretrained device : string)
| ModelEval
| ListPretrained
| Read
| ImageOpen (data : bytes)
| Convert (img : Image) (to : string)
| Preprocess (img : Image)
| Cuda
| NoGradEnter
| NoGradExit
| EncodeImage.

Definition is_CreateModel (ev : Event) : bool :=
  match ev with CreateModel _ _ _ => true | _ => false end.
Definition is_EncodeImage (ev : Event) : bool :=
  match ev with EncodeImage => true | _ => false end.
Definition is_upload_event (ev : Event) : bool :=
  match ev with Read | ImageOpen _ | Convert _ _ => true | _ => false end.

(** The load-count probe: how often [create_model_and_transforms] ran. *)
Definition load_count (tr : list Event) : nat :=
  List.length (filter is_CreateModel tr).
(** How often the model's forward pass ran. *)
Definition forward_count (tr : list Event) : nat :=
  List.length (filter is_EncodeImage tr).

(** ** The world outside the module

    What the process environment and the imported libraries answer.
    The libraries' objects are opaque handles: [Model] is the open_clip
    model, [Transform] its paired preprocessing transform, [Tensor] a
    torch tensor holding an image.  A call returns or raises.  Only
    [create_model_and_transforms] depends on when it is called (weights
    are resolved over the network or from a cache): it takes the number
    of earlier calls.  The other answers are functions of the arguments;
    no property below compares two of them. *)
Record Env (Model Transform Tensor : Type) : Type := mkEnv {
  (* os.getenv(key) *)
  environ : string -> option string;
  (* how `import torch; import open_clip` ended: None = both imported *)
  import_error : option Exn;
  (* torch.cuda.is_available() *)
  cuda_is_available : bool;
  (* open_clip.create_model_and_transforms(name, pretrained=, device=),
     without the third component of its result, which the code drops *)
  create_model_and_transforms :
    nat -> string -> string -> string -> Outcome (Model * Transform);
  (* model.eval(): switches the object behind the handle, or raises *)
  model_eval : Model -> Outcome unit;
  (* open_clip.list_pretrained() *)
  list_pretrained : Outcome (list (string * string));
  (* Image.open(io.BytesIO(data)) *)
  Image_open : bytes -> Outcome Image;
  (* img.convert(to) *)
  convert : Image -> string -> Outcome Image;
  (* preprocess(pil) *)
  transform_call : Transform -> Image -> Outcome Tensor;
  (* t.unsqueeze(0) *)
  unsqueeze0 : Tensor -> Tensor;
  (* x.cuda(non_blocking=True) *)
  cuda : Tensor -> Outcome Tensor;
  (* model.encode_image(x) for a batch x of one item, in evaluation
     mode: the single row of the 1 x D feature matrix *)
  encode_image : Model -> Tensor -> Outcome (list float32);
  (* row.norm(dim=-1): torch's reduction, whose summation order is not
     fixed by the module *)
  norm : list float32 -> float32;
  (* whether JSONResponse(content) raises while rendering *)
  json_error : Body -> option Exn
}.
Arguments mkEnv {Model Transform Tensor}.
Arguments environ {Model Transform Tensor} _.
Arguments import_error {Model Transform Tensor} _.
Arguments cuda_is_available {Model Transform Tensor} _.
Arguments create_model_and_transforms {Model Transform Tensor} _.
Arguments model_eval {Model Transform Tensor} _.
Arguments list_pretrained {Model Transform Tensor} _.
Arguments Image_open {Model Transform Tensor} _.
Arguments convert {Model Transform Tensor} _.
Arguments transform_call {Model Transform Tensor} _.
Arguments unsqueeze0 {Model Transform Tensor} _.
Arguments cuda {Model Transform Tensor} _.
Arguments encode_image {Model Transform Tensor} _.
Arguments norm {Model Transform Tensor} _.
Arguments json_error {Model Transform Tensor} _.

(** The two globals that are assigned after import, and the trace. *)
Record State (Model Transform : Type) : Type := mkState {
  MODEL : option Model;
  PREPROCESS : option Transform;
  trace : list Event
}.
Arguments mkState {Model Transform}.
Arguments MODEL {Model Transform} _.
Arguments PREPROCESS {Model Transform} _.
Arguments trace {Model Transform} _.

Section Service.

Context {Model Transform Tensor : Type}.
Variable E : Env Model Transform Tensor.

#[local] Abbreviation State := (State Model Transform).

(** ** Module-level globals *)

(** [open_clip] and [torch] are either both modules or both [None]. *)
Definition open_clip_is_None : bool :=
  match import_error E with Some _ => true | None => false end.
Definition torch_is_None : bool :=
  match import_error E with Some _ => true | None => false end.

(* os.getenv(key, default) *)
Definition getenv (key default : string) : string :=
  match environ E key with Some v => v | None => default end.

Definition MODEL_NAME : string := getenv "MODEL_NAME" "ViT-B-32".
Definition PRETRAINED : string := getenv "PRETRAINED" "laion2b_s34b_b79k".
Definition DEVICE : string :=
  getenv "DEVICE"
    (if negb torch_is_None && cuda_is_available E then "cuda" else "cpu").

(** The state once the module body has run: the import warning is the
    only output so far. *)
Definition module_init : State :=
  {| MODEL := None;
     PREPROCESS := None;
     trace :=
       match import_error E with
       | Some e =>
           [Printed stderr
              ("[startup] Warning: failed to import torch/open_clip: "
                 ++ str e)%string]
       | None => []
       end |}.

(** ** The monad: state that survives a raise *)

Definition M (A : Type) : Type := State -> State * Outcome A.

Definition ret {A : Type} (a : A) : M A := fun s => (s, Returned a).

Definition raise {A : Type} (e : Exn) : M A := fun s => (s, Raised e).

Definition bind {A B : Type} (c : M A) (k : A -> M B) : M B :=
  fun s =>
    match c s with
    | (s', Returned a) => k a s'
    | (s', Raised e) => (s', Raised e)
    end.

(* try: c   except Exception as e: h e *)
Definition try_except {A : Type} (c : M A) (h : Exn -> M A) : M A :=
  fun s =>
    match c s with
    | (s', Returned a) => (s', Returned a)
    | (s', Raised e) => h e s'
    end.

(** The state with further events on its trace. *)
Definition logged (s : State) (evs : list Event) : State :=
  {| MODEL := MODEL s; PREPROCESS := PREPROCESS s; trace := trace s ++ evs |}.

Definition emit (ev : Event) : M unit :=
  fun s => (logged s [ev], Returned tt).

Definition lift {A : Type} (r : Outcome A) : M A := fun s => (s, r).

(** A call into a library: it is recorded, then it returns or raises. *)
Definition call {A : Type} (ev : Event) (r : Outcome A) : M A :=
  bind (emit ev) (fun _ => lift r).

Definition get_MODEL : M (option Model) := fun s => (s, Returned (MODEL s)).
Definition get_PREPROCESS : M (option Transform) :=
  fun s => (s, Returned (PREPROCESS s)).
(* which call of create_model_and_transforms comes next: 0 for the first *)
Definition get_load_count : M nat :=
  fun s => (s, Returned (load_count (trace s))).
Definition set_MODEL (m : Model) : M unit :=
  fun s =>
    ({| MODEL := Some m; PREPROCESS := PREPROCESS s; trace := trace s |},
     Returned tt).
Definition set_PREPROCESS (p : Transform) : M unit :=
  fun s =>
    ({| MODEL := MODEL s; PREPROCESS := Some p; trace := trace s |},
     Returned tt).

Notation "x <- c ;; k" := (bind c (fun x => k))
  (at level 61, c at next level, right associativity).
Notation "c ;; k" := (bind c (fun _ => k))
  (at level 61, right associativity).

(* with torch.no_grad(): c   -- the exit runs whether c returns or raises *)
Definition with_no_grad {A : Type} (c : M A) : M A :=
  if torch_is_None then
    raise (Exception "'NoneType' object has no attribute 'no_grad'")
  else
    emit NoGradEnter ;;
    (fun s =>
       match c s with
       | (s', r) => (logged s' [NoGradExit], r)
       end).

(** ** The loader *)

Definition _load_model : M unit :=
  if open_clip_is_None || torch_is_None then
    raise (Exception
             "torch/open_clip not available. Please install dependencies.")
  else
    current <- get_MODEL ;;
    match current with
    | None =>
        emit (Printed stdout
                ("[startup] Loading model name=" ++ MODEL_NAME
                   ++ " pretrained=" ++ PRETRAINED
                   ++ " device=" ++ DEVICE)%string) ;;
        attempt <- get_load_count ;;
        created <- call (CreateModel MODEL_NAME PRETRAINED DEVICE)
                     (create_model_and_transforms E attempt
                        MODEL_NAME PRETRAINED DEVICE) ;;
        let (model, preprocess) := created in
        call ModelEval (model_eval E model) ;;
        set_MODEL model ;;
        set_PREPROCESS preprocess
    | Some _ => ret tt
    end.

(** The three events a load that goes through leaves on the trace. *)
Definition load_events : list Event :=
  [Printed stdout
     ("[startup] Loading model name=" ++ MODEL_NAME
        ++ " pretrained=" ++ PRETRAINED ++ " device=" ++ DEVICE)%string;
   CreateModel (MODEL_NAME) (PRETRAINED) (DEVICE);
   ModelEval].

(* @app.on_event("startup") *)
Definition on_startup : M unit :=
  try_except _load_model
    (fun e =>
       emit (Printed stderr ("[startup] Model load failed: " ++ str e)%string)).

(** ** The routes *)

(* @app.get("/health") *)
Definition health : M Body :=
  ret (HealthBody true MODEL_NAME PRETRAINED DEVICE).

(* @app.get("/models") *)
Definition models : M Body :=
  if open_clip_is_None then
    raise (HTTPException 500 "open_clip not available")
  else
    try_except
      (table <- call ListPretrained (list_pretrained E) ;;
       ret (ModelsBody table))
      (fun e =>
         raise (HTTPException 500 ("Failed to list models: " ++ str e)%string)).

(* @app.get("/config") *)
Definition config : M Body :=
  ret (ConfigBody MODEL_NAME PRETRAINED DEVICE).

(* feats / feats.norm(dim=-1, keepdim=True), on the single row *)
Definition normalize (feats : list float32) : list float32 :=
  map (fun x => float32_div x (norm E feats)) feats.

(* Image.open(io.BytesIO(data)).convert("RGB"), as PIL evaluates it *)
Definition decode (data : bytes) : Outcome Image :=
  match Image_open E data with
  | Returned opened => convert E opened "RGB"
  | Raised e => Raised e
  end.

(* fastapi.responses.JSONResponse(content): rendered when constructed *)
Definition JSONResponse (content : Body) : M Response :=
  match json_error E content with
  | Some e => raise e
  | None => ret {| status := 200; body := content |}
  end.

(* @app.post("/embed") *)
Definition embed (image : UploadFile) : M Response :=
  try_except _load_model
    (fun e =>
       raise (HTTPException 500 ("Model not available: " ++ str e)%string)) ;;
  pil <- try_except
           (data <- call Read (read image) ;;
            opened <- call (ImageOpen data) (Image_open E data) ;;
            call (Convert opened "RGB") (convert E opened "RGB"))
           (fun e =>
              raise (HTTPException 400 ("Invalid image: " ++ str e)%string)) ;;
  try_except
    (preprocess <- get_PREPROCESS ;;
     t <- match preprocess with
          | Some f => call (Preprocess pil) (transform_call E f pil)
          | None => raise (Exception "'NoneType' object is not callable")
          end ;;
     x <- ret (unsqueeze0 E t) ;;
     x <- (if String.eqb DEVICE "cuda" then call Cuda (cuda E x) else ret x) ;;
     vec <- with_no_grad
              (model <- get_MODEL ;;
               feats <- match model with
                        | Some m => call EncodeImage (encode_image E m x)
                        | None =>
                            raise (Exception
                              "'NoneType' object has no attribute 'encode_image'")
                        end ;;
               feats <- ret (normalize feats) ;;
               (* .squeeze(0).float().cpu().numpy().astype(np.float32):
                  the row itself, already float32 *)
               ret feats) ;;
     (* vec.tolist() keeps every value; vec.shape[0] is the row's length *)
     JSONResponse
       (EmbedBody vec (Z.of_nat (List.length vec)) MODEL_NAME PRETRAINED))
    (fun e =>
       raise (HTTPException 500 ("Embedding failed: " ++ str e)%string)).

(** ** FastAPI around the routes *)

(** What the framework answers when a route raises: an [HTTPException]
    becomes its status and a [detail] body, anything else a plain 500. *)
Definition exception_response (e : Exn) : Response :=
  match e with
  | HTTPException status_code detail =>
      {| status := status_code; body := DetailBody detail |}
  | Exception _ => {| status := 500; body := InternalServerError |}
  end.

(** A route that returns a dictionary is answered with status 200. *)
Definition route_dict (h : M Body) : State -> State * Response :=
  fun s =>
    match h s with
    | (s', Returned b) => (s', {| status := 200; body := b |})
    | (s', Raised e) => (s', exception_response e)
    end.

(** A route that returns a response object is answered with it. *)
Definition route_response (h : M Response) : State -> State * Response :=
  fun s =>
    match h s with
    | (s', Returned r) => (s', r)
    | (s', Raised e) => (s', exception_response e)
    end.

(** The requests the routes are written for.  A [POST /embed] carries
    its [image] part: FastAPI answers one without it before [embed]
    runs. *)
Inductive Request : Type :=
| GET_health
| GET_models
| GET_config
| POST_embed (image : UploadFile).

Definition app (r : Request) : State -> State * Response :=
  match r with
  | GET_health => route_dict health
  | GET_models => route_dict models
  | GET_config => route_dict config
  | POST_embed image => route_response (embed image)
  end.

(** The requests of one process lifetime, served one after the other:
    the routes run on one event loop, and a route gives up control only
    in [await image.read()]. *)
Fixpoint serve (rs : list Request) (s : State) : State * list Response :=
  match rs with
  | [] => (s, [])
  | r :: rs' =>
      let (s1, resp) := app r s in
      let (s2, resps) := serve rs' s1 in
      (s2, resp :: resps)
  end.

(** The events a run from [s] to [s'] added to the trace. *)
Definition events_since (s s' : State) : list Event :=
  skipn (List.length (trace s)) (trace s').

(** The state in which the first request is served. *)
Definition started : State := fst (on_startup module_init).

Definition lifetime (rs : list Request) : State * list Response :=
  serve rs started.

End Service.

(** ** Concrete worlds

    Small instances of [Env], used to run the service on explicit
    inputs.  The model handle is the number of the load attempt that
    produced it; the preprocessing transform hands the image on. *)

Module Demo.

(** Starlette renders with [allow_nan=False]: a NaN or an infinity in the
    content makes [json.dumps] raise [ValueError]. *)
Definition strict_json (content : Body) : option Exn :=
  match content with
  | EmbedBody embedding _ _ _ =>
      if forallb (fun x => negb (is_nan x || is_infinity x)) embedding
      then None
      else Some (Exception "Out of range float values are not JSON compliant")
  | _ => None
  end.

Definition of_Z (z : Z) : float32 := binary_normalize 24 128 z 0 false.

(** A Euclidean norm in binary32, summing the squares left to right. *)
Definition l2 (v : list float32) : float32 :=
  SFsqrt 24 128
    (fold_left (fun acc x => SFadd 24 128 acc (SFmul 24 128 x x)) v
       (S754_zero false)).

Definition world (imports : option Exn) (loads : nat -> bool)
    (feats : list float32) : Env nat unit Image :=
  {| environ := fun key =>
       if String.eqb key "PRETRAINED" then Some "openai" else None;
     import_error := imports;
     cuda_is_available := false;
     create_model_and_transforms := fun attempt _ _ _ =>
       if loads attempt then Returned (attempt, tt)
       else Raised (Exception "pretrained weights not found");
     model_eval := fun _ => Returned tt;
     list_pretrained := Returned [("ViT-B-32", "openai")];
     Image_open := fun data =>
       match data with
       | [] => Raised (Exception "cannot identify image file")
       | _ :: _ => Returned {| mode := "L"; size := (1, 1); pixels := data |}
       end;
     convert := fun img to =>
       Returned {| mode := to; size := size img; pixels := pixels img |};
     transform_call := fun _ img => Returned img;
     unsqueeze0 := fun t => t;
     cuda := fun _ => Raised (Exception "CUDA is not available");
     encode_image := fun _ _ => Returned feats;
     norm := l2;
     json_error := strict_json |}.

(** Libraries imported, weights resolvable, features (3, 4). *)
Definition healthy : Env nat unit Image :=
  world None (fun _ => true) [of_Z 3; of_Z 4].

(** The import of torch/open_clip failed. *)
Definition no_library : Env nat unit Image :=
  world (Some (Exception "No module named 'open_clip'")) (fun _ => true)
    [of_Z 3; of_Z 4].

(** Libraries imported, but the weights never resolve. *)
Definition no_weights : Env nat unit Image :=
  world None (fun _ => false) [of_Z 3; of_Z 4].

(** The first load attempt fails, later ones succeed. *)
Definition late_weights : Env nat unit Image :=
  world None (fun attempt => negb (Nat.eqb attempt 0)) [of_Z 3; of_Z 4].

(** A model whose feature vector is all zeros. *)
Definition zero_features : Env nat unit Image :=
  world None (fun _ => true) [S754_zero false; S754_zero false].

(** A model whose features are finite binary32 numbers too large to be
    squared: (2^100, 2^100). *)
Definition huge_features : Env nat unit Image :=
  world None (fun _ => true) [of_Z (2 ^ 100); of_Z (2 ^ 100)].

Definition png_bytes : bytes := [x89; x50; x4e; x47].
Definition png : UploadFile := mkUpload (Returned png_bytes).
Definition empty_upload : UploadFile := mkUpload (Returned []).

(** What the toy decoder makes of [png_bytes]: a greyscale image, and
    its conversion to RGB. *)
Definition grey : Image := {| mode := "L"; size := (1, 1); pixels := png_bytes |}.
Definition rgb : Image := {| mode := "RGB"; size := (1, 1); pixels := png_bytes |}.

(** The requests of one run of the server. *)
Definition session : list Request :=
  [GET_config; POST_embed png; GET_health; POST_embed empty_upload; GET_config].

End Demo.

(** ** Notions for statements about whole runs *)

Definition is_POST_embed (r : Request) : bool :=
  match r with POST_embed _ => true | _ => false end.

(** How many of the requests are [POST /embed]. *)
Definition embed_requests (rs : list Request) : nat :=
  List.length (filter is_POST_embed rs).

Definition is_NoGradEnter (ev : Event) : bool :=
  match ev with NoGradEnter => true | _ => false end.
Definition is_NoGradExit (ev : Event) : bool :=
  match ev with NoGradExit => true | _ => false end.

(** An event is no load, or a load of the configured model. *)
Definition configured_load {Model Transform Tensor : Type}
    (E : Env Model Transform Tensor) (ev : Event) : Prop :=
  match ev with
  | CreateModel name pretrained device =>
      name = MODEL_NAME E /\ pretrained = PRETRAINED E /\ device = DEVICE E
  | _ => True
  end.

(** A world like [Demo.healthy] whose environment asks for the GPU, and
    whose GPU takes the tensor. *)
Definition gpu_world : Env nat unit Image :=
  {| environ := fun key =>
       if String.eqb key "DEVICE" then Some "cuda"
       else environ Demo.healthy key;
     import_error := import_error Demo.healthy;
     cuda_is_available := true;
     create_model_and_transforms := create_model_and_transforms Demo.healthy;
     model_eval := model_eval Demo.healthy;
     list_pretrained := list_pretrained Demo.healthy;
     Image_open := Image_open Demo.healthy;
     convert := convert Demo.healthy;
     transform_call := transform_call Demo.healthy;
     unsqueeze0 := unsqueeze0 Demo.healthy;
     cuda := fun t => Returned t;
     encode_image := encode_image Demo.healthy;
     norm := norm Demo.healthy;
     json_error := json_error Demo.healthy |}.

(** The registry holds a model and its transform together or neither,
    and holds them only when torch and open_clip were imported. *)
Definition registry_ok {Model Transform Tensor : Type}
    (E : Env Model Transform Tensor) (s : State Model Transform) : bool :=
  match MODEL s, PREPROCESS s with
  | None, None => true
  | Some _, Some _ => negb (open_clip_is_None E)
  | _, _ => false
  end.

(** * The example client of [examples/upload_and_verify.py]

    The script uploads a file, saves the manifest the server answers
    with, and sends the manifest back for verification.  Its calls into
    [requests], [os.path], [json] and the file system are answers of a
    [World]; the effects are recorded in a trace of their own. *)

Module Client.

(** A value parsed from JSON, as Python holds it.  An object is a
    [dict]: its items in insertion order, no key twice. *)
#[warnings="-register-all"]
Inductive JSON : Type :=
| JNull
| JBool (b : bool)
| JInt (n : Z)
| JFloat (x : spec_float)
| JString (s : string)
| JArray (items : list JSON)
| JObject (items : list (string * JSON)).

(* type(v).__name__ *)
Definition type_name (v : JSON) : string :=
  match v with
  | JNull => "NoneType"
  | JBool _ => "bool"
  | JInt _ => "int"
  | JFloat _ => "float"
  | JString _ => "str"
  | JArray _ => "list"
  | JObject _ => "dict"
  end.

(* bool(v), as [not v] tests it *)
Definition truthy (v : JSON) : bool :=
  match v with
  | JNull => false
  | JBool b => b
  | JInt n => negb (Z.eqb n 0)
  | JFloat x => match x with S754_zero _ => false | _ => true end
  | JString s => negb (String.eqb s "")
  | JArray items => match items with [] => false | _ :: _ => true end
  | JObject items => match items with [] => false | _ :: _ => true end
  end.

(** The two handlers of [main] tell [requests.exceptions.RequestException]
    (and its subclasses) from every other [Exception]. *)
Inductive Error : Type :=
| RequestException (msg : string)
| OtherException (msg : string).

Definition str (e : Error) : string :=
  match e with RequestException msg | OtherException msg => msg end.

Inductive Result (A : Type) : Type :=
| Ok (a : A)
| Err (e : Error).
Arguments Ok {A} a.
Arguments Err {A} e.

Fixpoint lookup (key : string) (items : list (string * JSON)) : option JSON :=
  match items with
  | [] => None
  | (k, v) :: rest => if String.eqb k key then Some v else lookup key rest
  end.

(* v.get(key, default): a method of dict only *)
Definition get (v : JSON) (key : string) (default : JSON) : Result JSON :=
  match v with
  | JObject items =>
      Ok (match lookup key items with Some x => x | None => default end)
  | _ =>
      Err (OtherException
             ("'" ++ type_name v ++ "' object has no attribute 'get'")%string)
  end.

(** A [requests.Response], as far as the script uses it. *)
Record Reply : Type := mkReply {
  raise_for_status : Result unit;
  json : Result JSON
}.

Record World : Type := mkWorld {
  (* os.path.basename(path) *)
  basename : string -> string;
  (* os.path.splitext(path) *)
  splitext : string -> string * string;
  (* open(path, 'rb'): the content requests will send *)
  open_rb : string -> Result bytes;
  (* requests.post(url, files={'file': (filename, f)}) *)
  post_files : string -> string -> bytes -> Result Reply;
  (* requests.post(url, headers={'Content-Type': 'application/json'},
                   json=payload) *)
  post_json : string -> JSON -> Result Reply;
  (* open(path, 'w') *)
  open_w : string -> Result unit;
  (* json.dump(v, f, indent=2), given the text it writes *)
  write : string -> string -> Result unit;
  (* json.dumps(v, indent=2) *)
  dumps : JSON -> string;
  (* str(v) for a value that is not a str *)
  repr : JSON -> string
}.

(* str(v), as print and an f-string format a value *)
Definition py_str (W : World) (v : JSON) : string :=
  match v with JString s => s | _ => repr W v end.

Inductive Event : Type :=
| Printed (line : string)
| OpenRead (path : string)
| CloseRead (path : string)
| PostFiles (url filename : string) (content : bytes)
| PostJson (url : string) (payload : JSON)
| OpenWrite (path : string)
| WriteText (path text : string)
| CloseWrite (path : string).

Definition is_PostFiles (ev : Event) : bool :=
  match ev with PostFiles _ _ _ => true | _ => false end.
Definition is_PostJson (ev : Event) : bool :=
  match ev with PostJson _ _ => true | _ => false end.
Definition is_write (ev : Event) : bool :=
  match ev with OpenWrite _ | WriteText _ _ => true | _ => false end.

(** The script's monad: the trace survives a raise. *)
Definition Script (A : Type) : Type := list Event -> list Event * Result A.

Definition ret {A : Type} (a : A) : Script A := fun tr => (tr, Ok a).

Definition bind {A B : Type} (c : Script A) (k : A -> Script B) : Script B :=
  fun tr =>
    match c tr with
    | (tr', Ok a) => k a tr'
    | (tr', Err e) => (tr', Err e)
    end.

Definition emit (ev : Event) : Script unit := fun tr => (tr ++ [ev], Ok tt).

Definition lift {A : Type} (r : Result A) : Script A := fun tr => (tr, r).

Definition call {A : Type} (ev : Event) (r : Result A) : Script A :=
  bind (emit ev) (fun _ => lift r).

(* with <opened> as f: body   -- [closed] is recorded however body ends *)
Definition closing {A : Type} (closed : Event) (body : Script A) : Script A :=
  fun tr => match body tr with (tr', r) => (tr' ++ [closed], r) end.

(* try: c   except RequestException as e: h1 e   except Exception as e: h2 e *)
Definition try_except {A : Type} (c : Script A)
    (on_request_exception on_exception : Error -> Script A) : Script A :=
  fun tr =>
    match c tr with
    | (tr', Ok a) => (tr', Ok a)
    | (tr', Err (RequestException msg)) =>
        on_request_exception (RequestException msg) tr'
    | (tr', Err (OtherException msg)) => on_exception (OtherException msg) tr'
    end.

#[local] Notation "x <- c ;; k" := (bind c (fun x => k))
  (at level 61, c at next level, right associativity).
#[local] Notation "c ;; k" := (bind c (fun _ => k))
  (at level 61, right associativity).

(** The line feed of ["\nManifest received:"] and the like. *)
Definition nl : string := String (ascii_of_nat 10) EmptyString.

Section Script.

Variable W : World.

Definition upload_file (server_url file_path : string) : Script JSON :=
  let url := (server_url ++ "/api/upload")%string in
  response <-
    (f <- call (OpenRead file_path) (open_rb W file_path) ;;
     closing (CloseRead file_path)
       (call (PostFiles url (basename W file_path) f)
          (post_files W url (basename W file_path) f))) ;;
  lift (raise_for_status response) ;;
  lift (json response).

Definition verify_manifest (server_url : string) (manifest : JSON)
    : Script JSON :=
  let url := (server_url ++ "/api/verify")%string in
  response <- call (PostJson url manifest) (post_json W url manifest) ;;
  lift (raise_for_status response) ;;
  lift (json response).

(** [main] once [argparse] has produced [args.server] and
    [args.file_path]. *)
Definition main (server file_path : string) : Script unit :=
  try_except
    (emit (Printed ("Uploading " ++ file_path ++ "...")%string) ;;
     result <- upload_file server file_path ;;
     success <- lift (get result "success" JNull) ;;
     if negb (truthy success) then
       error <- lift (get result "error" (JString "Unknown error")) ;;
       emit (Printed ("Error: " ++ py_str W error)%string)
     else
       manifest <- lift (get result "data" (JObject [])) ;;
       emit (Printed (nl ++ "Manifest received:")%string) ;;
       emit (Printed (dumps W manifest)) ;;
       manifest_path <-
         ret (fst (splitext W file_path) ++ "_manifest.json")%string ;;
       (call (OpenWrite manifest_path) (open_w W manifest_path) ;;
        closing (CloseWrite manifest_path)
          (call (WriteText manifest_path (dumps W manifest))
             (write W manifest_path (dumps W manifest)))) ;;
       emit (Printed (nl ++ "Manifest saved to " ++ manifest_path)%string) ;;
       emit (Printed (nl ++ "Verifying manifest...")%string) ;;
       verify_result <- verify_manifest server manifest ;;
       emit (Printed ("Verification result: " ++ py_str W verify_result)%string))
    (fun e => emit (Printed ("Error: " ++ str e)%string))
    (fun e =>
       emit (Printed ("An unexpected error occurred: " ++ str e)%string)).

End Script.

(** A server that accepts the upload and the manifest. *)
Definition manifest : JSON := JObject [("sha256", JString "abc")].

Definition accepting : World :=
  {| basename := fun p => p;
     splitext := fun p =>
       if String.eqb p "cat.png" then ("cat", ".png") else (p, "");
     open_rb := fun _ => Ok [x01; x02];
     post_files := fun _ _ _ =>
       Ok {| raise_for_status := Ok tt;
             json := Ok (JObject [("success", JBool true);
                                  ("data", manifest)]) |};
     post_json := fun _ payload =>
       Ok {| raise_for_status := Ok tt;
             json := Ok (JObject [("valid", JBool true)]) |};
     open_w := fun _ => Ok tt;
     write := fun _ _ => Ok tt;
     dumps := fun _ => "{...}";
     repr := fun _ => "{...}" |}.

(** A server that answers the upload with [{"success": false}]. *)
Definition refusing : World :=
  {| basename := fun p => p;
     splitext := fun p =>
       if String.eqb p "cat.png" then ("cat", ".png") else (p, "");
     open_rb := fun _ => Ok [x01; x02];
     post_files := fun _ _ _ =>
       Ok {| raise_for_status := Ok tt;
             json := Ok (JObject [("success", JBool false)]) |};
     post_json := fun _ payload =>
       Err (RequestException "connection refused");
     open_w := fun _ => Ok tt;
     write := fun _ _ => Ok tt;
     dumps := fun _ => "{...}";
     repr := fun _ => "{...}" |}.

End Client.

(** ** Proof automation

    [unfold_embed] runs the monad as far as the next call whose outcome
    is not known; [innermost_match] splits on that outcome. *)

Ltac innermost_match :=
  match goal with
  | |- context [match ?x with _ => _ end] =>
      lazymatch x with
      | context [match _ with _ => _ end] => fail
      | _ => destruct x eqn:?
      end
  end.

Ltac unfold_embed :=
  cbv beta iota zeta delta
    [app route_response embed bind try_except call emit lift with_no_grad
     JSONResponse get_MODEL get_PREPROCESS ret raise exception_response
     fst snd].

Ltac run_embed := unfold_embed; repeat (innermost_match; unfold_embed).

Ltac unfold_route :=
  cbv beta iota zeta delta
    [app route_response embed bind try_except call emit lift with_no_grad
     JSONResponse get_MODEL get_PREPROCESS ret raise exception_response
     fst snd status body].

Ltac run_route := unfold_route; repeat (innermost_match; unfold_route).

Ltac unfold_script :=
  cbv beta iota zeta delta
    [Client.main Client.upload_file Client.verify_manifest Client.bind
     Client.try_except Client.call Client.emit Client.lift Client.closing
     Client.ret Client.get fst snd].

Ltac run_script := unfold_script; repeat (innermost_match; unfold_script).

Ltac count_events :=
  unfold logged, forward_count, load_count in *; simpl in *;
  rewrite ?filter_app, ?length_app in *; simpl in *; lia.

Ltac index_upto k :=
  lazymatch k with
  | O => exists O; split; [lia | reflexivity]
  | S ?k' => first [ exists k; split; [lia | reflexivity] | index_upto k' ]
  end.

(** * Division in binary32

    [SFdiv] is followed through its three steps, the integer quotient
    with the place of the remainder, the alignment to the format's
    exponent and the rounding to nearest even, to bound the error of
    each quotient [x / norm] and from there the norm of the normalised
    vector. *)

Section Rounding32.

Local Open Scope Q_scope.

Lemma pow2_pos (e : Z) : 0 < pow2 e.
Proof. unfold pow2. apply Qpower_0_lt. reflexivity. Qed.

Lemma pow2_add (a b : Z) : pow2 (a + b) == pow2 a * pow2 b.
Proof. unfold pow2. apply Qpower_plus. discriminate. Qed.

Lemma pow2_succ (e : Z) : pow2 (e + 1) == 2 * pow2 e.
Proof. rewrite pow2_add. unfold pow2 at 2. simpl. ring. Qed.

Lemma pow2_le (a b : Z) : (a <= b)%Z -> pow2 a <= pow2 b.
Proof.
  intros H. unfold pow2. apply Qpower_le_compat_l; [exact H|]. discriminate.
Qed.

Lemma pow2_inject (a : Z) : (0 <= a)%Z -> pow2 a == inject_Z (2 ^ a).
Proof.
  intros H. unfold pow2. rewrite Zpower_Qpower by exact H. reflexivity.
Qed.

Lemma inject_Z_xO (p : positive) : inject_Z (Z.pos p~0) == 2 * inject_Z (Z.pos p).
Proof. rewrite Pos2Z.inj_xO, inject_Z_mult. reflexivity. Qed.

Lemma inject_Z_xI (p : positive) :
  inject_Z (Z.pos p~1) == 2 * inject_Z (Z.pos p) + 1.
Proof. rewrite Pos2Z.inj_xI, inject_Z_plus, inject_Z_mult. reflexivity. Qed.

Lemma shr_1_inbetween (mrs : shr_record) (P v : Q) :
  (0 <= shr_m mrs)%Z -> 0 < P ->
  inbetween P (shr_m mrs) (loc_of_shr_record mrs) v ->
  inbetween (2 * P) (shr_m (shr_1 mrs)) (loc_of_shr_record (shr_1 mrs)) v.
Proof.
  destruct mrs as [m r s]. simpl shr_m. intros Hm HP.
  destruct m as [|p|p]; [| |lia].
  - destruct r, s; simpl; change (inject_Z 0) with 0; intros H; lra.
  - destruct p as [p|p|].
    + pose proof (inject_Z_xI p) as Hp.
      set (M := inject_Z (Z.pos p)) in *. set (M1 := inject_Z (Z.pos p~1)) in *.
      destruct r, s; simpl; fold M; fold M1; intros H; nra.
    + pose proof (inject_Z_xO p) as Hp.
      set (M := inject_Z (Z.pos p)) in *. set (M1 := inject_Z (Z.pos p~0)) in *.
      destruct r, s; simpl; fold M; fold M1; intros H; nra.
    + destruct r, s; simpl; change (inject_Z 1) with 1;
        change (inject_Z 0) with 0; intros H; lra.
Qed.

Lemma inbetween_ext (P P' : Q) (m : Z) (l : location) (v : Q) :
  P == P' -> inbetween P m l v -> inbetween P' m l v.
Proof.
  intros H. destruct l as [|[]]; simpl; rewrite H; trivial.
Qed.

Lemma shr_1_m (mrs : shr_record) :
  (0 <= shr_m mrs)%Z ->
  (0 <= shr_m (shr_1 mrs))%Z /\ shr_m (shr_1 mrs) = (shr_m mrs / 2)%Z.
Proof.
  destruct mrs as [m r s]. simpl shr_m. intros Hm.
  destruct m as [|p|p]; [| |lia].
  - simpl. split; [lia|reflexivity].
  - destruct p as [p|p|]; simpl shr_m.
    + split; [lia|]. rewrite Pos2Z.inj_xI.
      apply Z.div_unique with 1%Z; lia.
    + split; [lia|]. rewrite Pos2Z.inj_xO.
      apply Z.div_unique with 0%Z; lia.
    + split; [lia|reflexivity].
Qed.

Lemma iter_shr (n : positive) :
  forall (mrs : shr_record) (P v : Q),
    (0 <= shr_m mrs)%Z -> 0 < P ->
    inbetween P (shr_m mrs) (loc_of_shr_record mrs) v ->
    (0 <= shr_m (SpecFloat.iter_pos shr_1 n mrs))%Z
    /\ shr_m (SpecFloat.iter_pos shr_1 n mrs) = (shr_m mrs / 2 ^ Z.pos n)%Z
    /\ inbetween (pow2 (Z.pos n) * P) (shr_m (SpecFloat.iter_pos shr_1 n mrs))
         (loc_of_shr_record (SpecFloat.iter_pos shr_1 n mrs)) v.
Proof.
  induction n as [n IH|n IH|]; intros mrs P v Hm HP Hin; simpl SpecFloat.iter_pos.
  - destruct (shr_1_m mrs Hm) as [H0 H1].
    pose proof (shr_1_inbetween mrs P v Hm HP Hin) as H2.
    assert (HP2 : 0 < 2 * P) by lra.
    destruct (IH _ _ _ H0 HP2 H2) as (H3 & H4 & H5).
    assert (HP3 : 0 < pow2 (Z.pos n) * (2 * P)).
    { pose proof (pow2_pos (Z.pos n)). nra. }
    destruct (IH _ _ _ H3 HP3 H5) as (H6 & H7 & H8).
    split; [exact H6|]. split.
    + rewrite H7, H4, H1, !Z.div_div by (try apply Z.pow_pos_nonneg; lia).
      f_equal.
      assert (Hp : (2 ^ Z.pos n~1 = 2 * (2 ^ Z.pos n * 2 ^ Z.pos n))%Z).
      { rewrite <- Z.pow_add_r, <- Z.pow_succ_r by lia. f_equal. lia. }
      rewrite Hp. ring.
    + eapply inbetween_ext; [|exact H8].
      assert (Hp : pow2 (Z.pos n~1) == 2 * (pow2 (Z.pos n) * pow2 (Z.pos n))).
      { rewrite <- pow2_add, <- pow2_succ.
        replace (Z.pos n + Z.pos n + 1)%Z with (Z.pos n~1) by lia.
        reflexivity. }
      rewrite Hp. ring.
  - destruct (IH _ _ _ Hm HP Hin) as (H3 & H4 & H5).
    assert (HP3 : 0 < pow2 (Z.pos n) * P).
    { pose proof (pow2_pos (Z.pos n)). nra. }
    destruct (IH _ _ _ H3 HP3 H5) as (H6 & H7 & H8).
    split; [exact H6|]. split.
    + rewrite H7, H4, !Z.div_div by (try apply Z.pow_pos_nonneg; lia).
      f_equal.
      assert (Hp : (2 ^ Z.pos n~0 = 2 ^ Z.pos n * 2 ^ Z.pos n)%Z).
      { rewrite <- Z.pow_add_r by lia. f_equal. lia. }
      rewrite Hp. ring.
    + eapply inbetween_ext; [|exact H8].
      assert (Hp : pow2 (Z.pos n~0) == pow2 (Z.pos n) * pow2 (Z.pos n)).
      { rewrite <- pow2_add.
        replace (Z.pos n + Z.pos n)%Z with (Z.pos n~0) by lia.
        reflexivity. }
      rewrite Hp. ring.
  - destruct (shr_1_m mrs Hm) as [H0 H1].
    pose proof (shr_1_inbetween mrs P v Hm HP Hin) as H2.
    split; [exact H0|]. split; [exact H1|].
    eapply inbetween_ext; [|exact H2]. unfold pow2. simpl. ring.
Qed.

Lemma digits2_pos_spec (p : positive) :
  (2 ^ (Z.pos (digits2_pos p) - 1) <= Z.pos p < 2 ^ Z.pos (digits2_pos p))%Z.
Proof.
  induction p as [p IH|p IH|]; simpl digits2_pos.
  - rewrite Pos2Z.inj_succ, (Pos2Z.inj_xI p).
    replace (Z.succ (Z.pos (digits2_pos p)) - 1)%Z
      with (Z.succ (Z.pos (digits2_pos p) - 1)) by lia.
    rewrite !Z.pow_succ_r by lia.
    set (A := (2 ^ (Z.pos (digits2_pos p) - 1))%Z) in *.
    set (B := (2 ^ Z.pos (digits2_pos p))%Z) in *. lia.
  - rewrite Pos2Z.inj_succ, (Pos2Z.inj_xO p).
    replace (Z.succ (Z.pos (digits2_pos p)) - 1)%Z
      with (Z.succ (Z.pos (digits2_pos p) - 1)) by lia.
    rewrite !Z.pow_succ_r by lia.
    set (A := (2 ^ (Z.pos (digits2_pos p) - 1))%Z) in *.
    set (B := (2 ^ Z.pos (digits2_pos p))%Z) in *. lia.
  - simpl. lia.
Qed.

Lemma Zdigits2_spec (m : Z) :
  (0 < m)%Z ->
  (0 < Zdigits2 m /\ 2 ^ (Zdigits2 m - 1) <= m < 2 ^ Zdigits2 m)%Z.
Proof.
  destruct m as [|p|p]; try lia. intros _. simpl Zdigits2.
  split; [lia | apply digits2_pos_spec].
Qed.

Lemma Zdigits2_unique (m k : Z) :
  (0 < m)%Z -> (2 ^ (k - 1) <= m < 2 ^ k)%Z -> Zdigits2 m = k.
Proof.
  intros Hm [H1 H2]. destruct (Zdigits2_spec m Hm) as (Hd & H3 & H4).
  assert (Hk : (0 < k)%Z).
  { destruct (Z_lt_le_dec 0 k) as [|Hk]; [assumption|].
    destruct (Z.eq_dec k 0) as [->|]; [simpl in H2; lia|].
    rewrite Z.pow_neg_r in H2 by lia. lia. }
  destruct (Z_lt_le_dec (Zdigits2 m) k) as [Hlt|Hge].
  - assert (2 ^ Zdigits2 m <= 2 ^ (k - 1))%Z
      by (apply Z.pow_le_mono_r; lia). lia.
  - destruct (Z_lt_le_dec k (Zdigits2 m)) as [Hlt|Hle]; [|lia].
    assert (2 ^ k <= 2 ^ (Zdigits2 m - 1))%Z
      by (apply Z.pow_le_mono_r; lia). lia.
Qed.

Lemma Zdigits2_nonneg (m : Z) : (0 <= Zdigits2 m)%Z.
Proof. destruct m; simpl; lia. Qed.

Lemma Zdigits2_div (m n : Z) :
  (0 <= m)%Z -> (0 <= n)%Z ->
  Zdigits2 (m / 2 ^ n) = Z.max (Zdigits2 m - n) 0.
Proof.
  intros Hm Hn.
  assert (Hpn : (0 < 2 ^ n)%Z) by (apply Z.pow_pos_nonneg; lia).
  destruct (Z.eq_dec m 0) as [->|Hm0].
  - rewrite Z.div_0_l by lia. simpl. lia.
  - destruct (Zdigits2_spec m ltac:(lia)) as (Hd & H1 & H2).
    destruct (Z_lt_le_dec n (Zdigits2 m)) as [Hlt|Hge].
    + rewrite Z.max_l by lia. apply Zdigits2_unique.
      * apply Z.div_str_pos. split; [lia|].
        apply Z.le_trans with (2 ^ (Zdigits2 m - 1))%Z; [|lia].
        apply Z.pow_le_mono_r; lia.
      * split.
        -- apply Z.div_le_lower_bound; [lia|].
           rewrite <- Z.pow_add_r by lia.
           replace (n + (Zdigits2 m - n - 1))%Z with (Zdigits2 m - 1)%Z by lia.
           lia.
        -- apply Z.div_lt_upper_bound; [lia|].
           rewrite <- Z.pow_add_r by lia.
           replace (n + (Zdigits2 m - n))%Z with (Zdigits2 m) by lia. lia.
    + rewrite Z.max_r by lia.
      rewrite Z.div_small; [reflexivity|]. split; [lia|].
      apply Z.lt_le_trans with (2 ^ Zdigits2 m)%Z; [lia|].
      apply Z.pow_le_mono_r; lia.
Qed.

Lemma fexp32 (e : Z) : fexp 24 128 e = Z.max (e - 24) (-149).
Proof. reflexivity. Qed.

Lemma Zdigits2_le (m k : Z) :
  (0 <= m < 2 ^ k)%Z -> (0 <= k)%Z -> (Zdigits2 m <= k)%Z.
Proof.
  intros [H0 H1] Hk. destruct (Z.eq_dec m 0) as [->|Hm]; [simpl; lia|].
  destruct (Zdigits2_spec m ltac:(lia)) as (Hd & H2 & _).
  destruct (Z_lt_le_dec k (Zdigits2 m)) as [Hlt|]; [|lia].
  assert (2 ^ k <= 2 ^ (Zdigits2 m - 1))%Z by (apply Z.pow_le_mono_r; lia).
  lia.
Qed.

Lemma inbetween_bounds (P : Q) (m : Z) (l : location) (v : Q) :
  0 < P -> inbetween P m l v ->
  inject_Z m * P <= v /\ v < (inject_Z m + 1) * P.
Proof. destruct l as [|[]]; simpl; intros HP H; split; lra. Qed.

Lemma record_of_loc (m : Z) (l : location) :
  shr_m (shr_record_of_loc m l) = m
  /\ loc_of_shr_record (shr_record_of_loc m l) = l.
Proof. destruct l as [|[]]; split; reflexivity. Qed.

(** The first alignment: the mantissa is cut to the format's exponent
    and the cut bits are remembered as a place in the slot. *)
Lemma shr_fexp_spec (m e : Z) (l : location) (v : Q) :
  (0 <= m)%Z ->
  inbetween (pow2 e) m l v ->
  (e <= fexp 24 128 (Zdigits2 m + e))%Z ->
  let e1 := fexp 24 128 (Zdigits2 m + e) in
  let mrs := fst (shr_fexp 24 128 m e l) in
  snd (shr_fexp 24 128 m e l) = e1
  /\ (0 <= shr_m mrs)%Z
  /\ shr_m mrs = (m / 2 ^ (e1 - e))%Z
  /\ inbetween (pow2 e1) (shr_m mrs) (loc_of_shr_record mrs) v.
Proof.
  intros Hm Hin Hn. cbv zeta. unfold shr_fexp, shr.
  destruct (record_of_loc m l) as [Hrm Hrl].
  destruct (fexp 24 128 (Zdigits2 m + e) - e)%Z as [|p|p] eqn:Hp; [| |lia].
  - assert (He : fexp 24 128 (Zdigits2 m + e) = e) by lia.
    cbn [fst snd]. rewrite ?He, Hrm, Hrl.
    change (2 ^ 0)%Z with 1%Z. rewrite Z.div_1_r. repeat split; trivial.
  - cbn [fst snd].
    assert (He : fexp 24 128 (Zdigits2 m + e) = (e + Z.pos p)%Z) by lia.
    rewrite ?He.
    destruct (iter_shr p (shr_record_of_loc m l) (pow2 e) v) as (H1 & H2 & H3).
    + now rewrite Hrm.
    + apply pow2_pos.
    + now rewrite Hrm, Hrl.
    + split; [reflexivity|]. split; [exact H1|]. split.
      * rewrite H2, Hrm. reflexivity.
      * eapply inbetween_ext; [|exact H3]. rewrite pow2_add. ring.
Qed.

Lemma round_nearest_even_spec (P : Q) (m : Z) (l : location) (v : Q) :
  0 < P -> inbetween P m l v ->
  (round_nearest_even m l = m \/ round_nearest_even m l = (m + 1)%Z)
  /\ - P <= 2 * (inject_Z (round_nearest_even m l) * P - v) <= P.
Proof.
  intros HP Hin.
  assert (H1 : inject_Z (m + 1) == inject_Z m + 1)
    by (rewrite inject_Z_plus; reflexivity).
  destruct l as [|[]]; simpl in *.
  - split; [now left|]. lra.
  - destruct (Z.even m); [split; [now left|]; lra|].
    split; [now right|]. rewrite H1. lra.
  - split; [now left|]. lra.
  - split; [now right|]. rewrite H1. lra.
Qed.

Lemma first_shift_facts (m e : Z) :
  (0 <= m)%Z -> (e <= fexp 24 128 (Zdigits2 m + e))%Z ->
  let e1 := fexp 24 128 (Zdigits2 m + e) in
  let m1 := (m / 2 ^ (e1 - e))%Z in
  (-149 <= e1)%Z /\ (0 <= m1 < 2 ^ 24)%Z
  /\ ((-149 < e1)%Z -> (2 ^ 23 <= m1)%Z /\ (0 < m)%Z
                       /\ e1 = (Zdigits2 m + e - 24)%Z).
Proof.
  intros Hm Hn e1 m1. subst e1 m1. rewrite fexp32 in *.
  set (d := Zdigits2 m) in *. set (e1 := Z.max (d + e - 24) (-149)) in *.
  assert (Hd : (0 <= d)%Z) by apply Zdigits2_nonneg.
  assert (Hd1 := Zdigits2_div m (e1 - e) Hm ltac:(lia)). fold d in Hd1.
  set (m1 := (m / 2 ^ (e1 - e))%Z) in *.
  assert (Hm1 : (0 <= m1)%Z) by (apply Z.div_pos; [lia|apply Z.pow_pos_nonneg; lia]).
  split; [lia|]. split.
  - split; [exact Hm1|].
    destruct (Z.eq_dec m1 0) as [->|Hne]; [reflexivity|].
    destruct (Zdigits2_spec m1 ltac:(lia)) as (_ & _ & Hlt).
    assert (2 ^ Zdigits2 m1 <= 2 ^ 24)%Z by (apply Z.pow_le_mono_r; lia).
    lia.
  - intros Hnorm.
    assert (Hd24 : Zdigits2 m1 = 24%Z) by lia.
    assert (Hne : m1 <> 0%Z) by (intros H0; rewrite H0 in Hd24; discriminate).
    destruct (Zdigits2_spec m1 ltac:(lia)) as (_ & Hge & _).
    rewrite Hd24 in Hge. split; [exact Hge|]. split; [|lia].
    destruct (Z.eq_dec m 0) as [H0|]; [|lia].
    exfalso. apply Hne. unfold m1. rewrite H0. apply Z.div_0_l.
    apply Z.pow_nonzero; lia.
Qed.

Lemma second_shift_facts (mr e1 : Z) :
  (0 <= mr <= 2 ^ 24)%Z -> (-149 <= e1)%Z ->
  ((-149 < e1)%Z -> (2 ^ 23 <= mr)%Z) ->
  let e2 := fexp 24 128 (Zdigits2 mr + e1) in
  ((mr < 2 ^ 24)%Z /\ e2 = e1) \/ (mr = (2 ^ 24)%Z /\ e2 = (e1 + 1)%Z).
Proof.
  intros Hmr He1 Hnorm e2. subst e2. rewrite fexp32.
  destruct (Z.eq_dec mr (2 ^ 24)) as [->|Hne].
  - right. split; [reflexivity|]. change (Zdigits2 (2 ^ 24)) with 25%Z. lia.
  - left. split; [lia|].
    assert (Hle : (Zdigits2 mr <= 24)%Z) by (apply Zdigits2_le; lia).
    destruct (Z_lt_le_dec (-149) e1) as [Hn|Hs]; [|lia].
    specialize (Hnorm Hn).
    destruct (Zdigits2_spec mr ltac:(lia)) as (_ & _ & Hlt).
    destruct (Z_lt_le_dec (Zdigits2 mr) 24) as [Hlt24|]; [|lia].
    assert (2 ^ Zdigits2 mr <= 2 ^ 23)%Z
      by (apply Z.pow_le_mono_r; lia).
    lia.
Qed.

Lemma round_aux_spec (sx : bool) (m e : Z) (l : location) (v : Q) :
  (0 <= m)%Z ->
  inbetween (pow2 e) m l v ->
  (e <= fexp 24 128 (Zdigits2 m + e))%Z ->
  match binary_round_aux 24 128 sx m e l with
  | S754_zero s => s = sx /\ close_to 0 v
  | S754_finite s mm ee => s = sx /\ close_to (inject_Z (Z.pos mm) * pow2 ee) v
  | S754_infinity s => s = sx /\ pow2 127 <= v
  | S754_nan => False
  end.
Proof.
  intros Hm Hin Hn. unfold binary_round_aux.
  destruct (shr_fexp_spec m e l v Hm Hin Hn) as (He1 & Hm1 & Hm1eq & Hin1).
  destruct (first_shift_facts m e Hm Hn) as (Hemin & Hm1b & Hnorm).
  destruct (shr_fexp 24 128 m e l) as [mrs' e'] eqn:Hs1.
  cbn [fst snd] in *. rewrite <- He1 in *. clear He1.
  rewrite <- Hm1eq in *. clear Hm1eq.
  set (m1 := shr_m mrs') in *. set (l1 := loc_of_shr_record mrs') in *.
  destruct (round_nearest_even_spec (pow2 e') m1 l1 v (pow2_pos e') Hin1)
    as (Hmr & Herr).
  destruct (inbetween_bounds _ _ _ _ (pow2_pos e') Hin1) as (Hlo & Hhi).
  set (mr := round_nearest_even m1 l1) in *.
  assert (Hmrb : (0 <= mr <= 2 ^ 24)%Z) by lia.
  assert (Hmrn : (-149 < e')%Z -> (2 ^ 23 <= mr)%Z)
    by (intros H; specialize (Hnorm H); lia).
  assert (Hn2 : (e' <= fexp 24 128 (Zdigits2 mr + e'))%Z)
    by (destruct (second_shift_facts mr e' Hmrb Hemin Hmrn) as [[_ ->]|[_ ->]]; lia).
  assert (Hin2 : inbetween (pow2 e') mr loc_Exact (inject_Z mr * pow2 e'))
    by (simpl; reflexivity).
  destruct (shr_fexp_spec mr e' loc_Exact _ ltac:(lia) Hin2 Hn2)
    as (He2 & Hm2 & Hm2eq & _).
  destruct (shr_fexp 24 128 mr e' loc_Exact) as [mrs'' e''] eqn:Hs2.
  cbn [fst snd] in *.
  set (m2 := shr_m mrs'') in *.
  assert (Hval : inject_Z m2 * pow2 e'' == inject_Z mr * pow2 e'
                 /\ (e' <= e'' <= e' + 1)%Z
                 /\ ((-149 < e')%Z -> (2 ^ 23 <= m2)%Z)).
  { destruct (second_shift_facts mr e' Hmrb Hemin Hmrn) as [[Hlt Heq]|[Heq24 Heq]];
      rewrite Heq in He2, Hm2eq; subst e''.
    - rewrite Z.sub_diag in Hm2eq. change (2 ^ 0)%Z with 1%Z in Hm2eq.
      rewrite Z.div_1_r in Hm2eq. rewrite Hm2eq.
      split; [reflexivity|]. split; [lia|]. exact Hmrn.
    - replace (e' + 1 - e')%Z with 1%Z in Hm2eq by lia.
      rewrite Heq24 in Hm2eq. change (2 ^ 24 / 2 ^ 1)%Z with (2 ^ 23)%Z in Hm2eq.
      rewrite Hm2eq, Heq24, pow2_succ.
      split; [|split; [lia|intros _; lia]].
      change (inject_Z (2 ^ 23)) with (8388608 # 1).
      change (inject_Z (2 ^ 24)) with (16777216 # 1). ring. }
  destruct Hval as (Hval & He'' & Hm2n).
  assert (Hu : pow2 (-24) == 1 # 16777216) by reflexivity.
  assert (Heta : pow2 (-149) == 2 * pow2 (-150))
    by (change (-149)%Z with (-150 + 1)%Z; apply pow2_succ).
  assert (Hetapos := pow2_pos (-150)).
  assert (HP := pow2_pos e').
  assert (Hv0 : 0 <= v).
  { assert (0 <= inject_Z m1) by (change 0 with (inject_Z 0); rewrite <- Zle_Qle; lia).
    nra. }
  assert (Hrel : pow2 e' <= 2 * (pow2 (-24) * v + pow2 (-150))).
  { destruct (Z_lt_le_dec (-149) e') as [Hn'|Hs'].
    - destruct (Hnorm Hn') as (Hge & _).
      assert (inject_Z (2 ^ 23) <= inject_Z m1) by (rewrite <- Zle_Qle; exact Hge).
      change (inject_Z (2 ^ 23)) with (8388608 # 1) in *.
      rewrite Hu. nra.
    - assert (e' = (-149)%Z) by lia. subst e'. rewrite Heta. nra. }
  unfold close_to, half_ulp, half_tiny.
  destruct m2 as [|mm|mm] eqn:Em2; [| |lia].
  - split; [reflexivity|].
    assert (Hz : inject_Z mr * pow2 e' == 0) by (rewrite <- Hval; ring).
    lra.
  - destruct (Z.leb_spec e'' (128 - 24)) as [Hfin|Hinf].
    + split; [reflexivity|]. rewrite Hval. lra.
    + split; [reflexivity|].
      assert (H105 : pow2 105 <= pow2 e'') by (apply pow2_le; lia).
      assert (H127 : pow2 127 == (4194304 # 1) * pow2 105).
      { change 127%Z with (22 + 105)%Z. rewrite pow2_add. reflexivity. }
      assert (Hge : inject_Z (2 ^ 23) <= inject_Z (Z.pos mm))
        by (rewrite <- Zle_Qle; apply Hm2n; lia).
      change (inject_Z (2 ^ 23)) with (8388608 # 1) in *.
      assert (HP'' : pow2 e' <= pow2 e'') by (apply pow2_le; lia).
      assert (H105p := pow2_pos 105).
      rewrite H127. set (M := inject_Z (Z.pos mm)) in *.
      assert (Hstep : ((8388608 # 1) - (1 # 2)) * pow2 105
                      <= (M - (1 # 2)) * pow2 e'') by nra.
      nra.
Qed.

Lemma new_location_cases (m2 r : Z) :
  (0 < m2)%Z -> (0 <= r < m2)%Z ->
  (new_location m2 r = loc_Exact /\ r = 0%Z)
  \/ (new_location m2 r = loc_Inexact Lt /\ (0 < r)%Z /\ (2 * r < m2)%Z)
  \/ (new_location m2 r = loc_Inexact Eq /\ (2 * r = m2)%Z)
  \/ (new_location m2 r = loc_Inexact Gt /\ (m2 < 2 * r)%Z).
Proof.
  intros Hm2 Hr. unfold new_location, new_location_even, new_location_odd.
  destruct (Z.even m2) eqn:Hev.
  - destruct (Z.eqb_spec r 0) as [->|Hne]; [now left|].
    destruct (Z.compare_spec (2 * r) m2) as [Heq|Hlt|Hgt].
    + right; right; left. split; [reflexivity|lia].
    + right; left. split; [reflexivity|lia].
    + right; right; right. split; [reflexivity|lia].
  - assert (Hodd : Z.odd m2 = true) by (rewrite <- Z.negb_even, Hev; reflexivity).
    apply Z.odd_spec in Hodd. destruct Hodd as [k Hk].
    destruct (Z.eqb_spec r 0) as [->|Hne]; [now left|].
    destruct (Z.compare_spec (2 * r + 1) m2) as [Heq|Hlt|Hgt].
    + right; left. split; [reflexivity|lia].
    + right; left. split; [reflexivity|lia].
    + right; right; right. split; [reflexivity|lia].
Qed.

Lemma new_location_spec (m2 r q : Z) (P v : Q) :
  (0 < m2)%Z -> (0 <= r < m2)%Z -> 0 < P ->
  v * inject_Z m2 == (inject_Z q * inject_Z m2 + inject_Z r) * P ->
  inbetween P q (new_location m2 r) v.
Proof.
  intros Hm2 Hr HP Hv.
  assert (HM : 0 < inject_Z m2)
    by (change 0 with (inject_Z 0); rewrite <- Zlt_Qlt; exact Hm2).
  set (M := inject_Z m2) in *. set (R := inject_Z r) in *.
  set (d := v - inject_Z q * P).
  assert (Hd : d * M == R * P) by (unfold d; lra).
  assert (H2 : inject_Z (2 * r) == 2 * R)
    by (rewrite inject_Z_mult; reflexivity).
  destruct (new_location_cases m2 r Hm2 Hr)
    as [[-> H]|[[-> [H H']]|[[-> H]|[-> H]]]]; simpl; fold d.
  - assert (HR : R == 0) by (unfold R; rewrite H; reflexivity).
    assert (d == 0) by nra. unfold d in *. lra.
  - assert (0 < R) by (change 0 with (inject_Z 0); unfold R; rewrite <- Zlt_Qlt; exact H).
    assert (2 * R < M) by (rewrite <- H2; unfold M; rewrite <- Zlt_Qlt; exact H').
    assert (0 < d) by nra. assert (2 * d < P) by nra.
    unfold d in *. split; lra.
  - assert (2 * R == M) by (rewrite <- H2; unfold M; rewrite H; reflexivity).
    assert (2 * d == P) by nra. exact H1.
  - assert (M < 2 * R) by (rewrite <- H2; unfold M; rewrite <- Zlt_Qlt; exact H).
    assert (R < M) by (unfold R, M; rewrite <- Zlt_Qlt; lia).
    assert (P < 2 * d) by nra. assert (d < P) by nra.
    unfold d in *. split; lra.
Qed.

Lemma quotient_digits (m1 m2 s : Z) :
  (0 < m1)%Z -> (0 < m2)%Z -> (0 <= s)%Z ->
  (Zdigits2 m1 + s - Zdigits2 m2 <= Zdigits2 (m1 * 2 ^ s / m2))%Z.
Proof.
  intros H1 H2 Hs.
  destruct (Zdigits2_spec m1 H1) as (Hd1 & Hlo1 & _).
  destruct (Zdigits2_spec m2 H2) as (Hd2 & _ & Hhi2).
  set (d1 := Zdigits2 m1) in *. set (d2 := Zdigits2 m2) in *.
  set (q := (m1 * 2 ^ s / m2)%Z).
  assert (Hq0 := Zdigits2_nonneg q).
  destruct (Z_le_gt_dec (d1 + s - d2) 0) as [|Hk]; [lia|].
  assert (Hpow : (2 ^ (d1 - 1) * 2 ^ s = 2 ^ (d1 + s - d2 - 1) * 2 ^ d2)%Z).
  { rewrite <- !Z.pow_add_r by lia. f_equal. lia. }
  assert (Hps : (0 < 2 ^ s)%Z) by (apply Z.pow_pos_nonneg; lia).
  assert (Hpk : (0 < 2 ^ (d1 + s - d2 - 1))%Z) by (apply Z.pow_pos_nonneg; lia).
  assert (Hge : (2 ^ (d1 + s - d2 - 1) <= q)%Z).
  { apply Z.div_le_lower_bound; [exact H2|]. nia. }
  destruct (Zdigits2_spec q ltac:(lia)) as (_ & _ & Hhi).
  destruct (Z_lt_le_dec (Zdigits2 q) (d1 + s - d2)) as [Hlt|]; [|lia].
  assert (2 ^ Zdigits2 q <= 2 ^ (d1 + s - d2 - 1))%Z
    by (apply Z.pow_le_mono_r; lia).
  lia.
Qed.

Lemma div_core_spec (m1 m2 : positive) (e1 e2 : Z) (v : Q) :
  v * (inject_Z (Z.pos m2) * pow2 e2) == inject_Z (Z.pos m1) * pow2 e1 ->
  let '(q, e', l) := SFdiv_core_binary 24 128 (Z.pos m1) e1 (Z.pos m2) e2 in
  (0 <= q)%Z /\ inbetween (pow2 e') q l v
  /\ (e' <= fexp 24 128 (Zdigits2 q + e'))%Z.
Proof.
  intros Hv. unfold SFdiv_core_binary.
  set (d1 := Zdigits2 (Z.pos m1)). set (d2 := Zdigits2 (Z.pos m2)).
  set (e' := Z.min (fexp 24 128 (d1 + e1 - (d2 + e2))) (e1 - e2)).
  set (s := (e1 - e2 - e')%Z).
  assert (Hs : (0 <= s)%Z) by (unfold s, e'; lia).
  set (m' := match s with
             | 0%Z => Z.pos m1
             | Z.pos _ => Z.shiftl (Z.pos m1) s
             | Z.neg _ => 0%Z
             end).
  assert (Hm' : m' = (Z.pos m1 * 2 ^ s)%Z).
  { unfold m'. destruct s as [|p|p] eqn:Es; [change (2 ^ 0)%Z with 1%Z; lia| |lia].
    apply Z.shiftl_mul_pow2. lia. }
  assert (Hdm := Z_div_mod m' (Z.pos m2) ltac:(lia)).
  assert (Hq : fst (Z.div_eucl m' (Z.pos m2)) = (m' / Z.pos m2)%Z) by reflexivity.
  destruct (Z.div_eucl m' (Z.pos m2)) as [q r]. cbn [fst] in Hq.
  destruct Hdm as [Heq Hr].
  assert (Hps : (0 < 2 ^ s)%Z) by (apply Z.pow_pos_nonneg; lia).
  assert (Hq0 : (0 <= q)%Z) by (rewrite Hq; apply Z.div_pos; lia).
  split; [exact Hq0|]. split.
  - apply new_location_spec; [lia|exact Hr|apply pow2_pos|].
    assert (He1 : pow2 e1 == pow2 s * (pow2 e' * pow2 e2)).
    { rewrite <- !pow2_add. replace (s + (e' + e2))%Z with e1 by (unfold s; lia).
      reflexivity. }
    assert (HM' : inject_Z m' == inject_Z (Z.pos m1) * pow2 s)
      by (rewrite Hm', inject_Z_mult, pow2_inject by exact Hs; reflexivity).
    assert (HM'' : inject_Z m' == inject_Z (Z.pos m2) * inject_Z q + inject_Z r)
      by (rewrite Heq, inject_Z_plus, inject_Z_mult; reflexivity).
    assert (Hp2 := pow2_pos e2).
    rewrite He1 in Hv.
    assert (Hc : (v * inject_Z (Z.pos m2)) * pow2 e2
                 == (inject_Z m' * pow2 e') * pow2 e2)
      by (rewrite HM'; lra).
    apply Qmult_inj_r in Hc; [|lra].
    rewrite Hc, HM''. ring.
  - rewrite Hq, Hm'.
    assert (Hdig := quotient_digits (Z.pos m1) (Z.pos m2) s ltac:(lia) ltac:(lia) Hs).
    fold d1 d2 in Hdig.
    assert (He' : e' = Z.min (Z.max (d1 + e1 - (d2 + e2) - 24) (-149)) (e1 - e2))
      by (unfold e'; rewrite fexp32; reflexivity).
    assert (Hs' : s = (e1 - e2 - e')%Z) by reflexivity.
    rewrite fexp32. set (dq := Zdigits2 _) in *.
    clearbody dq. clear Hm' Heq Hq Hps. clearbody m' s e' d1 d2. lia.
Qed.

(** Division of two finite numbers: correctly rounded, and an infinity
    only when the exact quotient is out of range. *)
Lemma div_finite_spec (sx sy : bool) (mx my : positive) (ex ey : Z) (v : Q) :
  v * (inject_Z (Z.pos my) * pow2 ey) == inject_Z (Z.pos mx) * pow2 ex ->
  match SFdiv 24 128 (S754_finite sx mx ex) (S754_finite sy my ey) with
  | S754_zero s => s = xorb sx sy /\ close_to 0 v
  | S754_finite s mm ee =>
      s = xorb sx sy /\ close_to (inject_Z (Z.pos mm) * pow2 ee) v
  | S754_infinity s => s = xorb sx sy /\ pow2 127 <= v
  | S754_nan => False
  end.
Proof.
  intros Hv. unfold SFdiv.
  pose proof (div_core_spec mx my ex ey v Hv) as H.
  destruct (SFdiv_core_binary 24 128 (Z.pos mx) ex (Z.pos my) ey) as [[q e'] l].
  destruct H as (Hq & Hin & He).
  exact (round_aux_spec (xorb sx sy) q e' l v Hq Hin He).
Qed.

Lemma square_bounds (u eta v x : Q) :
  0 <= u -> u <= 1 # 4 -> 0 < eta -> eta <= 1 -> 0 <= v -> v <= 2 -> 0 <= x ->
  - (u * v + eta) <= x - v <= u * v + eta ->
  x * x <= (1 + u) * (1 + u) * (v * v) + 9 * eta
  /\ (1 - u) * (1 - u) * (v * v) - 4 * eta <= x * x.
Proof.
  intros Hu0 Hu1 He0 He1 Hv0 Hv2 Hx [Hlo Hhi]. split.
  - assert (Hw0 : 0 <= (1 + u) * v) by nra.
    assert (Hw1 : (1 + u) * v <= 5 # 2) by nra.
    assert (Hxw : x <= (1 + u) * v + eta) by lra.
    set (w := (1 + u) * v) in *.
    assert (Hww : w * w == (1 + u) * (1 + u) * (v * v)) by (unfold w; ring).
    rewrite <- Hww.
    assert (H1 : x * x <= (w + eta) * (w + eta)) by nra.
    assert (H2 : w * eta <= (5 # 2) * eta) by nra.
    assert (H3 : eta * eta <= eta) by nra.
    assert (H4 : (w + eta) * (w + eta) == w * w + 2 * (w * eta) + eta * eta)
      by ring.
    lra.
  - assert (Hw0 : 0 <= (1 - u) * v) by nra.
    assert (Hw1 : (1 - u) * v <= 2) by nra.
    assert (Hxw : (1 - u) * v - eta <= x) by lra.
    set (w := (1 - u) * v) in *.
    assert (Hww : w * w == (1 - u) * (1 - u) * (v * v)) by (unfold w; ring).
    rewrite <- Hww.
    assert (H2 : w * eta <= 2 * eta) by nra.
    destruct (Qlt_le_dec w eta) as [Hs|Hb].
    + assert (0 <= x * x) by nra.
      assert (w * w <= w * eta) by nra. lra.
    + assert (H1 : (w - eta) * (w - eta) <= x * x) by nra.
      assert (H4 : (w - eta) * (w - eta) == w * w - 2 * (w * eta) + eta * eta)
        by ring.
      assert (0 <= eta * eta) by nra.
      lra.
Qed.

Lemma value_square (s : bool) (m : positive) (e : Z) :
  square (value (S754_finite s m e))
  == square (inject_Z (Z.pos m) * pow2 e).
Proof.
  unfold square, value. destruct s; simpl cond_Zopp; [|reflexivity].
  change (inject_Z (Z.neg m)) with (- inject_Z (Z.pos m)). ring.
Qed.

Lemma half_ulp_bounds : 0 <= half_ulp /\ half_ulp <= 1 # 4.
Proof. split; discriminate. Qed.

Lemma half_tiny_bounds : 0 < half_tiny /\ half_tiny <= 1.
Proof.
  split; [apply pow2_pos|].
  change 1 with (pow2 0). apply pow2_le. lia.
Qed.

Lemma scale_bounds (a b eta x v A N : Q) :
  0 <= N * N -> (v * v) * (N * N) == A * A ->
  x * x <= a * (v * v) + 9 * eta ->
  b * (v * v) - 4 * eta <= x * x ->
  x * x * (N * N) <= a * (A * A) + 9 * eta * (N * N)
  /\ b * (A * A) - 4 * eta * (N * N) <= x * x * (N * N).
Proof.
  intros HNN Hvv Hhi Hlo.
  assert (H1 : x * x * (N * N) <= (a * (v * v) + 9 * eta) * (N * N))
    by (apply Qmult_le_compat_r; assumption).
  assert (H2 : (b * (v * v) - 4 * eta) * (N * N) <= x * x * (N * N))
    by (apply Qmult_le_compat_r; assumption).
  assert (H3 : (a * (v * v) + 9 * eta) * (N * N)
               == a * (A * A) + 9 * eta * (N * N))
    by (rewrite <- Hvv; ring).
  assert (H4 : (b * (v * v) - 4 * eta) * (N * N)
               == b * (A * A) - 4 * eta * (N * N))
    by (rewrite <- Hvv; ring).
  rewrite H3 in H1. rewrite H4 in H2. split; assumption.
Qed.

(** One quotient of the normalisation: when the component is at most
    twice the divisor it is a number, and its square is the square of
    the exact quotient up to the rounding of one division. *)
Lemma div_component (x : float32) (mn : positive) (en : Z) :
  is_finite x = true ->
  square (value x) <= 4 * square (value (S754_finite false mn en)) ->
  is_finite (float32_div x (S754_finite false mn en)) = true
  /\ square (value (float32_div x (S754_finite false mn en)))
       * square (value (S754_finite false mn en))
     <= square (1 + half_ulp) * square (value x)
        + 9 * half_tiny * square (value (S754_finite false mn en))
  /\ square (1 - half_ulp) * square (value x)
       - 4 * half_tiny * square (value (S754_finite false mn en))
     <= square (value (float32_div x (S754_finite false mn en)))
          * square (value (S754_finite false mn en)).
Proof.
  intros Hfin Hle.
  destruct half_ulp_bounds as [Hu0 Hu1]. destruct half_tiny_bounds as [He0 He1].
  assert (HN : 0 < inject_Z (Z.pos mn) * pow2 en).
  { apply Qmult_lt_0_compat; [reflexivity|apply pow2_pos]. }
  rewrite (value_square false mn en) in *.
  set (N := inject_Z (Z.pos mn) * pow2 en) in *.
  destruct x as [s| | |s m e]; try discriminate.
  - split; [reflexivity|]. unfold float32_div. simpl SFdiv.
    simpl value. unfold square. split; nra.
  - assert (HA : 0 < inject_Z (Z.pos m) * pow2 e).
    { apply Qmult_lt_0_compat; [reflexivity|apply pow2_pos]. }
    rewrite (value_square s m e) in *.
    set (A := inject_Z (Z.pos m) * pow2 e) in *.
    unfold square in Hle.
    assert (HA2 : A <= 2 * N) by nra.
    set (v := A / N).
    assert (Hv : v * N == A) by (unfold v; field; lra).
    assert (Hv0 : 0 <= v) by nra.
    assert (Hv2 : v <= 2) by nra.
    assert (Hvv : (v * v) * (N * N) == A * A) by (rewrite <- Hv; ring).
    assert (HNN : 0 <= N * N) by nra.
    pose proof (div_finite_spec s false m mn e en v Hv) as Hdiv.
    unfold float32_div.
    destruct (SFdiv 24 128 (S754_finite s m e) (S754_finite false mn en))
      as [s'|s'| |s' mm ee].
    + destruct Hdiv as [_ Hc]. split; [reflexivity|].
      destruct (square_bounds half_ulp half_tiny v 0 Hu0 Hu1 He0 He1 Hv0 Hv2
                  ltac:(lra) Hc) as [Hhi Hlo].
      change (value (S754_zero s')) with 0. unfold square.
      exact (scale_bounds _ _ _ 0 v A N HNN Hvv Hhi Hlo).
    + destruct Hdiv as [_ Hc]. exfalso.
      assert (2 < pow2 127) by reflexivity. lra.
    + destruct Hdiv.
    + destruct Hdiv as [_ Hc]. split; [reflexivity|].
      rewrite value_square.
      assert (HX : 0 <= inject_Z (Z.pos mm) * pow2 ee).
      { apply Qlt_le_weak, Qmult_lt_0_compat; [reflexivity|apply pow2_pos]. }
      set (X := inject_Z (Z.pos mm) * pow2 ee) in *.
      destruct (square_bounds half_ulp half_tiny v X Hu0 Hu1 He0 He1 Hv0 Hv2
                  HX Hc) as [Hhi Hlo].
      unfold square.
      exact (scale_bounds _ _ _ X v A N HNN Hvv Hhi Hlo).
Qed.

Lemma square_nonneg (q : Q) : 0 <= square q.
Proof. unfold square. nra. Qed.

Lemma sum_squares_nonneg (v : list float32) : 0 <= sum_squares v.
Proof.
  induction v as [|x v IH]; simpl; [lra|].
  pose proof (square_nonneg (value x)). lra.
Qed.

Lemma sum_squares_in (x : float32) (v : list float32) :
  In x v -> square (value x) <= sum_squares v.
Proof.
  induction v as [|y v IH]; simpl; [intros []|].
  intros [->|Hin].
  - pose proof (sum_squares_nonneg v). lra.
  - specialize (IH Hin). pose proof (square_nonneg (value y)). lra.
Qed.

Lemma inject_of_nat_succ (k : nat) :
  inject_Z (Z.of_nat (S k)) == inject_Z (Z.of_nat k) + 1.
Proof. rewrite Nat2Z.inj_succ. unfold Z.succ. now rewrite inject_Z_plus. Qed.

(** The quotients of a whole feature vector. *)
Lemma normalize_sum (feats : list float32) (mn : positive) (en : Z) :
  forallb is_finite feats = true ->
  (forall x, In x feats ->
     square (value x) <= 4 * square (value (S754_finite false mn en))) ->
  forallb is_finite
    (map (fun x => float32_div x (S754_finite false mn en)) feats) = true
  /\ sum_squares (map (fun x => float32_div x (S754_finite false mn en)) feats)
       * square (value (S754_finite false mn en))
     <= square (1 + half_ulp) * sum_squares feats
        + 9 * inject_Z (Z.of_nat (List.length feats)) * half_tiny
          * square (value (S754_finite false mn en))
  /\ square (1 - half_ulp) * sum_squares feats
       - 4 * inject_Z (Z.of_nat (List.length feats)) * half_tiny
         * square (value (S754_finite false mn en))
     <= sum_squares (map (fun x => float32_div x (S754_finite false mn en)) feats)
          * square (value (S754_finite false mn en)).
Proof.
  set (n := S754_finite false mn en).
  induction feats as [|x feats IH]; intros Hfin Hle.
  - cbn [map forallb sum_squares List.length].
    change (inject_Z (Z.of_nat 0)) with 0.
    split; [reflexivity|]. split; lra.
  - simpl in Hfin. apply andb_true_iff in Hfin. destruct Hfin as [Hx Hrest].
    destruct (IH Hrest (fun y Hy => Hle y (or_intror Hy))) as (IH1 & IH2 & IH3).
    destruct (div_component x mn en Hx (Hle x (or_introl eq_refl)))
      as (C1 & C2 & C3).
    fold n in C1, C2, C3.
    cbn [map forallb sum_squares List.length]. rewrite C1, IH1.
    split; [reflexivity|]. rewrite inject_of_nat_succ.
    set (T := sum_squares (map (fun x => float32_div x n) feats)) in *.
    set (q := square (value (float32_div x n))) in *.
    set (N2 := square (value n)) in *.
    set (a := square (value x)) in *. set (S' := sum_squares feats) in *.
    set (D := inject_Z (Z.of_nat (List.length feats))) in *.
    set (U := square (1 + half_ulp)) in *. set (L := square (1 - half_ulp)) in *.
    split; lra.
Qed.

Lemma upper_cancel (T N2 S' a U K c : Q) :
  0 < N2 -> 0 < a -> 0 <= U -> a * S' <= N2 ->
  T * N2 <= U * S' + K * N2 -> U + K * a <= c * a -> T <= c.
Proof.
  intros HN Ha HU HS HT HB.
  assert (H1 : (T * N2) * a <= (U * S' + K * N2) * a)
    by (apply Qmult_le_compat_r; lra).
  assert (H2 : U * (a * S') <= U * N2) by nra.
  assert (H3 : (U + K * a) * N2 <= (c * a) * N2)
    by (apply Qmult_le_compat_r; lra).
  assert (H4 : T * (N2 * a) <= c * (N2 * a)) by lra.
  apply Qmult_le_r in H4; [exact H4|]. nra.
Qed.

Lemma lower_cancel (T N2 S' b L K c : Q) :
  0 < N2 -> 0 < b -> 0 <= L -> N2 <= b * S' ->
  L * S' - K * N2 <= T * N2 -> c * b <= L - K * b -> c <= T.
Proof.
  intros HN Hb HL HS HT HB.
  assert (H1 : (L * S' - K * N2) * b <= (T * N2) * b)
    by (apply Qmult_le_compat_r; lra).
  assert (H2 : L * N2 <= L * (b * S')) by nra.
  assert (H3 : (c * b) * N2 <= (L - K * b) * N2)
    by (apply Qmult_le_compat_r; lra).
  assert (H4 : c * (N2 * b) <= T * (N2 * b)) by lra.
  apply Qmult_le_r in H4; [exact H4|]. nra.
Qed.

(** Dividing by an accurate norm gives a vector of norm 1, up to the
    error of the norm and the rounding of the divisions. *)
Lemma normalize_unit_norm (tol delta : Q) (feats : list float32) (n : float32) :
  accurate_norm delta feats n = true ->
  within_budget tol delta (List.length feats) = true ->
  unit_norm tol (map (fun x => float32_div x n) feats) = true.
Proof.
  unfold accurate_norm, within_budget, unit_norm.
  rewrite !andb_true_iff, !Qle_bool_iff.
  intros [[[Hfin Hpos] Hlo] Hhi] [[[[[Hd0 Hd1] Ht0] Ht1] Bhi] Blo].
  destruct n as [| | |[] mn en]; try discriminate. clear Hpos.
  assert (HN : 0 < square (value (S754_finite false mn en))).
  { rewrite value_square. unfold square.
    assert (0 < inject_Z (Z.pos mn) * pow2 en)
      by (apply Qmult_lt_0_compat; [reflexivity|apply pow2_pos]).
    nra. }
  assert (HS := sum_squares_nonneg feats).
  assert (Ha : 1 # 4 <= square (1 - delta)) by (unfold square; nra).
  assert (Hb : 0 < square (1 + delta)) by (unfold square; nra).
  pose proof (square_nonneg (1 + half_ulp)) as HU.
  pose proof (square_nonneg (1 - half_ulp)) as HL.
  assert (Hbound : forall x, In x feats ->
            square (value x) <= 4 * square (value (S754_finite false mn en))).
  { intros x Hx. pose proof (sum_squares_in x feats Hx). nra. }
  destruct (normalize_sum feats mn en Hfin Hbound) as (F & Shi & Slo).
  rewrite F. split; [split; [reflexivity|]|].
  - exact (lower_cancel _ _ _ _ _ _ _ HN Hb HL Hhi Slo Blo).
  - assert (Ha' : 0 < square (1 - delta)) by lra.
    exact (upper_cancel _ _ _ _ _ _ _ HN Ha' HU Hlo Shi Bhi).
Qed.

(** With an infinite norm every quotient of a number is a zero. *)
Lemma div_by_infinity (x n : float32) :
  is_finite x = true -> is_infinity n = true ->
  is_zero (float32_div x n) = true.
Proof. destruct x, n; intros; try discriminate; reflexivity. Qed.

Lemma map_div_infinity (n : float32) (xs : list float32) :
  is_infinity n = true -> forallb is_finite xs = true ->
  forallb is_zero (map (fun x => float32_div x n) xs) = true.
Proof.
  intros Hn. induction xs as [|x xs IH]; [reflexivity|].
  cbn [map forallb]. intros Hall. apply andb_true_iff in Hall.
  destruct Hall as [Hx Hxs].
  now rewrite (div_by_infinity x n Hx Hn), (IH Hxs).
Qed.

Lemma sum_squares_zeros (v : list float32) :
  forallb is_zero v = true -> sum_squares v == 0.
Proof.
  induction v as [|x v IH]; [reflexivity|].
  cbn [forallb sum_squares]. intros Hall. apply andb_true_iff in Hall.
  destruct Hall as [Hx Hv]. rewrite (IH Hv).
  destruct x; try discriminate. unfold square. simpl value. ring.
Qed.

(** A vector of zeros is not of norm 1, whatever tolerance below 1. *)
Lemma zeros_not_unit_norm (tol : Q) (v : list float32) :
  tol < 1 -> forallb is_zero v = true -> unit_norm tol v = false.
Proof.
  intros Htol Hz. unfold unit_norm.
  destruct (Qle_bool (square (1 - tol)) (sum_squares v)) eqn:Hle;
    [|now rewrite andb_false_r].
  apply Qle_bool_iff in Hle. rewrite (sum_squares_zeros v Hz) in Hle.
  unfold square in Hle. exfalso. nra.
Qed.

End Rounding32.

(** * Properties *)

Section Facts.

Context {Model Transform Tensor : Type}.
Variable E : Env Model Transform Tensor.

#[local] Abbreviation State := (State Model Transform).

(** ** Running the monad *)

Lemma logged_logged (s : State) (a b : list Event) :
  logged (logged s a) b = logged s (a ++ b).
Proof. unfold logged; simpl. now rewrite app_assoc. Qed.

Lemma load_count_app (a b : list Event) :
  load_count (a ++ b) = load_count a + load_count b.
Proof. unfold load_count. now rewrite filter_app, length_app. Qed.

Lemma forward_count_app (a b : list Event) :
  forward_count (a ++ b) = forward_count a + forward_count b.
Proof. unfold forward_count. now rewrite filter_app, length_app. Qed.

(** ** The loader, case by case *)

Lemma load_without_library (s : State) (e : Exn) :
  import_error E = Some e ->
  _load_model E s =
    (s, Raised (Exception
          "torch/open_clip not available. Please install dependencies.")).
Proof.
  intros H. unfold _load_model, open_clip_is_None, torch_is_None.
  rewrite H. reflexivity.
Qed.

Lemma load_when_loaded (s : State) (m : Model) :
  import_error E = None -> MODEL s = Some m ->
  _load_model E s = (s, Returned tt).
Proof.
  intros H Hm. unfold _load_model, open_clip_is_None, torch_is_None.
  rewrite H. simpl. unfold bind, get_MODEL. rewrite Hm. reflexivity.
Qed.

Lemma load_when_empty (s : State) :
  import_error E = None -> MODEL s = None ->
  _load_model E s =
    match create_model_and_transforms E (load_count (trace s))
            (MODEL_NAME E) (PRETRAINED E) (DEVICE E) with
    | Raised e => (logged s (firstn 2 (load_events E)), Raised e)
    | Returned (model, preprocess) =>
        match model_eval E model with
        | Raised e => (logged s (load_events E), Raised e)
        | Returned _ =>
            ({| MODEL := Some model; PREPROCESS := Some preprocess;
                trace := trace s ++ (load_events E) |}, Returned tt)
        end
    end.
Proof.
  intros H Hm. unfold _load_model, open_clip_is_None, torch_is_None.
  rewrite H. simpl.
  unfold bind, get_MODEL, call, emit, lift, get_load_count, bind.
  rewrite Hm. simpl.
  rewrite load_count_app. simpl. rewrite Nat.add_0_r.
  destruct (create_model_and_transforms E _ _ _ _) as [[model preprocess]|e];
    simpl.
  - destruct (model_eval E model) as [[]|e]; simpl.
    + unfold set_MODEL, set_PREPROCESS, logged; simpl.
      now rewrite <- !app_assoc.
    + now rewrite !logged_logged.
  - now rewrite !logged_logged.
Qed.

(** With no model loaded, a call runs [create_model_and_transforms] once
    when the libraries are imported, and not at all when they are not. *)
Lemma load_count_step (s : State) :
  MODEL s = None ->
  load_count (trace (fst (_load_model E s))) =
    load_count (trace s) + (if open_clip_is_None E then 0 else 1).
Proof.
  intros Hm. unfold open_clip_is_None.
  destruct (import_error E) as [e|] eqn:Hi.
  - rewrite (load_without_library s e Hi). simpl. lia.
  - rewrite (load_when_empty s Hi Hm).
    destruct (create_model_and_transforms E _ _ _ _) as [[model pre]|e].
    + destruct (model_eval E model) as [[]|e]; simpl;
        now rewrite load_count_app.
    + simpl. now rewrite load_count_app.
Qed.

(** A load that returns leaves a model in [MODEL]. *)
Lemma load_returns_model (s s1 : State) (u : unit) :
  _load_model E s = (s1, Returned u) -> exists m, MODEL s1 = Some m.
Proof.
  destruct (import_error E) as [e|] eqn:Hi.
  - rewrite (load_without_library s e Hi). discriminate.
  - destruct (MODEL s) as [m|] eqn:Hm.
    + rewrite (load_when_loaded s m Hi Hm). intros [= <-]. eauto.
    + rewrite (load_when_empty s Hi Hm).
      destruct (create_model_and_transforms E _ _ _ _) as [[model pre]|e];
        [|discriminate].
      destruct (model_eval E model) as [[]|e]; [|discriminate].
      intros [= <-]. simpl. eauto.
Qed.

(** ** The loader is idempotent *)

(** C3.  [_load_model] with a model already loaded changes nothing: the
    same instance stays in [MODEL] and the trace gains no event, so the
    load is not executed again.  With no model loaded, one call runs
    [create_model_and_transforms] once (not at all when torch/open_clip
    could not be imported: the call then fails at once) and either stores
    the model and its transform, after which a second call is a no-op, or
    raises and leaves both globals as they were. *)
Theorem load_model_idempotent (s : State) :
  match MODEL s with
  | Some _ =>
      fst (_load_model E s) = s
      /\ snd (_load_model E s) =
           (if open_clip_is_None E
            then Raised (Exception
                   "torch/open_clip not available. Please install dependencies.")
            else Returned tt)
  | None =>
      let s' := fst (_load_model E s) in
      load_count (trace s') =
        load_count (trace s) + (if open_clip_is_None E then 0 else 1)
      /\ match snd (_load_model E s) with
         | Returned _ =>
             (exists model preprocess,
                 create_model_and_transforms E (load_count (trace s))
                   (MODEL_NAME E) (PRETRAINED E) (DEVICE E)
                 = Returned (model, preprocess)
                 /\ MODEL s' = Some model /\ PREPROCESS s' = Some preprocess)
             /\ _load_model E s' = (s', Returned tt)
         | Raised _ => MODEL s' = None /\ PREPROCESS s' = PREPROCESS s
         end
  end.
Proof.
  destruct (MODEL s) as [m|] eqn:Hm.
  - unfold open_clip_is_None.
    destruct (import_error E) as [e|] eqn:Hi.
    + rewrite (load_without_library s e Hi). now split.
    + rewrite (load_when_loaded s m Hi Hm). now split.
  - cbv zeta. unfold open_clip_is_None.
    destruct (import_error E) as [e|] eqn:Hi.
    + rewrite (load_without_library s e Hi). simpl. auto.
    + rewrite (load_when_empty s Hi Hm).
      destruct (create_model_and_transforms E _ _ _ _)
        as [[model preprocess]|e] eqn:Hc.
      * destruct (model_eval E model) as [[]|e]; simpl.
        -- rewrite load_count_app. split; [reflexivity|].
           split; [now exists model, preprocess|].
           now apply (load_when_loaded _ model).
        -- rewrite load_count_app. auto.
      * simpl. rewrite load_count_app. auto.
Qed.

(** ** Health and configuration *)

(** C5.  [GET /health] answers 200 with [{ok, model, pretrained, device}]
    in every state and every world (model loaded, load failed, library
    not importable) and leaves the state, hence the trace and the load
    count, untouched. *)
Theorem health_always_ok (s : State) :
  app E GET_health s =
    (s, {| status := 200;
           body := HealthBody true (MODEL_NAME E) (PRETRAINED E) (DEVICE E) |})
  /\ load_count (trace (fst (app E GET_health s))) = load_count (trace s).
Proof. split; reflexivity. Qed.

Lemma config_response (s : State) :
  app E GET_config s =
    (s, {| status := 200;
           body := ConfigBody (MODEL_NAME E) (PRETRAINED E) (DEVICE E) |}).
Proof. reflexivity. Qed.

Lemma serve_nth (rs : list Request) :
  forall (s : State) (i : nat) (r : Request),
    nth_error rs i = Some r ->
    exists si, nth_error (snd (serve E rs s)) i = Some (snd (app E r si)).
Proof.
  induction rs as [|r0 rs IH]; intros s i r Hi.
  - destruct i; discriminate.
  - simpl. destruct (app E r0 s) as [s1 resp] eqn:Happ.
    destruct (serve E rs s1) as [s2 resps] eqn:Hs.
    destruct i as [|i]; simpl in *.
    + injection Hi as <-. exists s. now rewrite Happ.
    + destruct (IH s1 i r Hi) as [si Hsi]. exists si.
      now rewrite Hs in Hsi.
Qed.

(** C9.  Within one run of the server, started in any state and serving
    any requests, every two [GET /config] requests get the same answer:
    status 200 with the three values read from the environment when the
    module was imported. *)
Theorem config_stable (rs : list Request) (s : State) (i j : nat) :
  nth_error rs i = Some GET_config ->
  nth_error rs j = Some GET_config ->
  nth_error (snd (serve E rs s)) i = nth_error (snd (serve E rs s)) j
  /\ nth_error (snd (serve E rs s)) i =
       Some {| status := 200;
               body := ConfigBody (getenv E "MODEL_NAME" "ViT-B-32")
                         (getenv E "PRETRAINED" "laion2b_s34b_b79k")
                         (getenv E "DEVICE"
                            (if negb (torch_is_None E) && cuda_is_available E
                             then "cuda" else "cpu")) |}.
Proof.
  intros Hi Hj.
  destruct (serve_nth rs s i GET_config Hi) as [si Hsi].
  destruct (serve_nth rs s j GET_config Hj) as [sj Hsj].
  rewrite Hsi, Hsj, !config_response. split; reflexivity.
Qed.

(** ** One [POST /embed], path by path *)

Lemma embed_status (image : UploadFile) (s : State) :
  let resp := snd (app E (POST_embed image) s) in
  status resp = 200 \/ status resp = 400 \/ status resp = 500.
Proof.
  cbv zeta. run_embed; auto.
Qed.

(** What a load attempt adds to the trace is a prefix of [load_events]. *)
Lemma load_trace (s : State) :
  exists n, trace (fst (_load_model E s)) = trace s ++ firstn n (load_events E).
Proof.
  destruct (import_error E) as [e|] eqn:Hi.
  - exists 0. rewrite (load_without_library s e Hi). simpl.
    now rewrite app_nil_r.
  - destruct (MODEL s) as [m|] eqn:Hm.
    + exists 0. rewrite (load_when_loaded s m Hi Hm). simpl.
      now rewrite app_nil_r.
    + rewrite (load_when_empty s Hi Hm).
      destruct (create_model_and_transforms E _ _ _ _) as [[model pre]|e].
      * exists 3. now destruct (model_eval E model) as [[]|e].
      * now exists 2.
Qed.

Lemma load_events_no_upload (n : nat) :
  filter is_upload_event (firstn n (load_events E)) = [].
Proof. destruct n as [|[|[|[|n]]]]; reflexivity. Qed.

Lemma load_events_no_forward (n : nat) :
  forward_count (firstn n (load_events E)) = 0.
Proof. destruct n as [|[|[|[|n]]]]; reflexivity. Qed.

Lemma load_no_forward (s : State) :
  forward_count (trace (fst (_load_model E s))) = forward_count (trace s).
Proof.
  destruct (load_trace s) as [n ->].
  rewrite forward_count_app, load_events_no_forward. lia.
Qed.

Lemma events_since_app (s s' : State) (evs : list Event) :
  trace s' = trace s ++ evs -> events_since s s' = evs.
Proof.
  intros H. unfold events_since. rewrite H, skipn_app, skipn_all, Nat.sub_diag.
  reflexivity.
Qed.

(** A request whose load attempt raises ends with that attempt. *)
Lemma embed_load_raises (image : UploadFile) (s s1 : State) (e : Exn) :
  _load_model E s = (s1, Raised e) ->
  app E (POST_embed image) s =
    (s1, {| status := 500;
            body := DetailBody ("Model not available: " ++ str e)%string |}).
Proof. intros H. unfold_embed. rewrite H. reflexivity. Qed.

(** C8.  In [POST /embed] the load attempt comes first: it touches no
    part of the upload, and whatever else the request does is appended
    to the trace after it.  When the attempt raises (the libraries could
    not be imported, or the load failed), the request ends there, whatever
    bytes were uploaded: nothing is read or decoded, and the answer is
    status 500 with the loader's message, never 400. *)
Theorem load_attempt_precedes_upload (image : UploadFile) (s : State) :
  let s1 := fst (_load_model E s) in
  let s' := fst (app E (POST_embed image) s) in
  let resp := snd (app E (POST_embed image) s) in
  filter is_upload_event (events_since s s1) = []
  /\ match snd (_load_model E s) with
     | Raised e =>
         s' = s1
         /\ resp = {| status := 500;
                      body := DetailBody
                                ("Model not available: " ++ str e)%string |}
     | Returned _ => exists evs, trace s' = trace s1 ++ evs
     end
  /\ (if open_clip_is_None E then status resp = 500 else True).
Proof.
  cbv zeta. split; [|split].
  - destruct (load_trace s) as [n Hn].
    rewrite (events_since_app _ _ _ Hn). apply load_events_no_upload.
  - unfold_embed. destruct (_load_model E s) as [s1 [[]|e]]; unfold_embed.
    + repeat (innermost_match; unfold_embed); unfold logged; simpl;
        rewrite <- ?app_assoc; eauto.
    + split; reflexivity.
  - unfold open_clip_is_None.
    destruct (import_error E) as [e|] eqn:Hi; [|exact I].
    unfold_embed. rewrite (load_without_library s e Hi). reflexivity.
Qed.

(** ** Uploads that do not decode *)

(** C2, as the code has it.  When the uploaded bytes do not decode, the
    forward pass is not run, whatever the state; the answer is status 400
    with the decoder's message when the model is loaded or loads in this
    request, and status 500 with the loader's message when the load
    attempt raises. *)
Theorem undecodable_upload_rejected
    (image : UploadFile) (s : State) (data : bytes) (e : Exn) :
  read image = Returned data ->
  decode E data = Raised e ->
  let s' := fst (app E (POST_embed image) s) in
  let resp := snd (app E (POST_embed image) s) in
  forward_count (trace s') = forward_count (trace s)
  /\ resp =
       match snd (_load_model E s) with
       | Returned _ =>
           {| status := 400;
              body := DetailBody ("Invalid image: " ++ str e)%string |}
       | Raised e' =>
           {| status := 500;
              body := DetailBody ("Model not available: " ++ str e')%string |}
       end.
Proof.
  intros Hread Hdec. cbv zeta. unfold decode in Hdec.
  rewrite <- (load_no_forward s).
  unfold_embed. destruct (_load_model E s) as [s1 [[]|e']]; unfold_embed.
  - rewrite Hread. unfold_embed.
    destruct (Image_open E data) as [opened|e0]; unfold_embed.
    + rewrite Hdec. split; [count_events|reflexivity].
    + injection Hdec as ->. split; [count_events|reflexivity].
  - split; reflexivity.
Qed.

(** ** Successful responses *)

Lemma normalize_length (feats : list float32) :
  List.length (normalize E feats) = List.length feats.
Proof. unfold normalize. apply length_map. Qed.

(** A 200 from [POST /embed] carries the normalised features of the
    loaded model: as many numbers as [encode_image] returned. *)
Lemma embed_success (image : UploadFile) (s : State) :
  let s1 := fst (_load_model E s) in
  let resp := snd (app E (POST_embed image) s) in
  status resp = 200 ->
  exists (m : Model) (x : Tensor) (feats : list float32),
    MODEL s1 = Some m
    /\ encode_image E m x = Returned feats
    /\ body resp =
         EmbedBody (normalize E feats) (Z.of_nat (List.length feats))
           (MODEL_NAME E) (PRETRAINED E).
Proof.
  cbv zeta. unfold_embed.
  destruct (_load_model E s) as [s1 [[]|e']]; unfold_embed;
    [|discriminate].
  repeat (innermost_match; unfold_embed); simpl; try discriminate.
  all: intros _; unfold logged in *; simpl in *.
  all: rewrite normalize_length; do 3 eexists; repeat split; eauto.
Qed.

(** A 200 answer is for an upload that was read and decoded. *)
Lemma embed_success_decoded (image : UploadFile) (s : State) :
  status (snd (app E (POST_embed image) s)) = 200 ->
  exists (data : bytes) (pil : Image),
    read image = Returned data /\ decode E data = Returned pil.
Proof.
  unfold decode. unfold_embed.
  destruct (_load_model E s) as [s1 [[]|e']]; unfold_embed;
    [|discriminate].
  repeat (innermost_match; unfold_embed); cbn [status]; try discriminate.
  all: intros _; do 2 eexists; split; [reflexivity|].
  all: match goal with
       | H : Image_open E _ = Returned _ |- _ => rewrite H; eassumption
       end.
Qed.

(** C7.  Every 200 response of [POST /embed] has the shape
    [{embedding, dim, model, pretrained}] with [dim] the length of
    [embedding] and the configured model name and pretrained tag. *)
Theorem embed_response_dim
    (image : UploadFile) (s s' : State) (resp : Response) :
  app E (POST_embed image) s = (s', resp) ->
  status resp = 200 ->
  exists embedding : list float32,
    body resp =
      EmbedBody embedding (Z.of_nat (List.length embedding))
        (MODEL_NAME E) (PRETRAINED E).
Proof.
  intros Happ Hok.
  pose proof (embed_success image s) as H. cbv zeta in H.
  rewrite Happ in H. simpl in H.
  destruct (H Hok) as (m & x & feats & _ & _ & Hbody).
  exists (normalize E feats). now rewrite normalize_length.
Qed.

(** ** After the load attempt, a request leaves the loader alone *)

Lemma embed_after_load (image : UploadFile) (s : State) :
  let s1 := fst (_load_model E s) in
  let s' := fst (app E (POST_embed image) s) in
  MODEL s' = MODEL s1 /\ PREPROCESS s' = PREPROCESS s1
  /\ load_count (trace s') = load_count (trace s1).
Proof.
  cbv zeta. unfold_embed.
  destruct (_load_model E s) as [s1 [[]|e']]; unfold_embed; [|auto].
  repeat (innermost_match; unfold_embed); simpl.
  all: repeat split; try reflexivity; count_events.
Qed.

(** A load that raises leaves [MODEL] and [PREPROCESS] as they were. *)
Lemma load_raises_keeps_globals (s s1 : State) (e : Exn) :
  _load_model E s = (s1, Raised e) ->
  MODEL s1 = MODEL s /\ PREPROCESS s1 = PREPROCESS s.
Proof.
  destruct (import_error E) as [e0|] eqn:Hi.
  - rewrite (load_without_library s e0 Hi). intros [= <- _]. auto.
  - destruct (MODEL s) as [m|] eqn:Hm.
    + rewrite (load_when_loaded s m Hi Hm). discriminate.
    + rewrite (load_when_empty s Hi Hm).
      destruct (create_model_and_transforms E _ _ _ _) as [[model pre]|e1].
      * destruct (model_eval E model) as [[]|e1]; [discriminate|].
        intros [= <- _]. auto.
      * intros [= <- _]. auto.
Qed.

(** Once a model is loaded, no request replaces it or loads again. *)
Lemma app_keeps_model (r : Request) (s : State) (m : Model) :
  MODEL s = Some m ->
  MODEL (fst (app E r s)) = Some m
  /\ load_count (trace (fst (app E r s))) = load_count (trace s).
Proof.
  intros Hm.
  assert (Hload : fst (_load_model E s) = s).
  { destruct (import_error E) as [e|] eqn:Hi.
    - now rewrite (load_without_library s e Hi).
    - now rewrite (load_when_loaded s m Hi Hm). }
  destruct r as [| | |image].
  - now split.
  - unfold app, route_dict, models, try_except, bind, call, emit, lift, raise.
    destruct (open_clip_is_None E); [now split|].
    destruct (list_pretrained E); simpl; split; trivial; count_events.
  - now split.
  - destruct (embed_after_load image s) as (H1 & _ & H2).
    rewrite Hload in H1, H2. now rewrite H1, H2.
Qed.

Lemma serve_keeps_model (rs : list Request) :
  forall (s : State) (m : Model),
    MODEL s = Some m ->
    MODEL (fst (serve E rs s)) = Some m
    /\ load_count (trace (fst (serve E rs s))) = load_count (trace s).
Proof.
  induction rs as [|r rs IH]; intros s m Hm; [now split|].
  simpl. destruct (app_keeps_model r s m Hm) as [H1 H2].
  destruct (app E r s) as [s1 resp]. simpl in H1, H2.
  destruct (IH s1 m H1) as [H3 H4].
  destruct (serve E rs s1) as [s2 resps]. simpl in *.
  split; [exact H3 | now rewrite H4].
Qed.

(** ** Start-up *)

(** The start-up hook never raises. *)
Lemma on_startup_returns (s : State) : snd (on_startup E s) = Returned tt.
Proof.
  unfold on_startup, try_except, emit.
  now destruct (_load_model E s) as [s1 [[]|e]].
Qed.

(** C6.  When the load attempted at start-up raises, the hook still
    returns: the failure is printed to stderr and nothing else changes,
    so the server goes on to serve ([/health] answers 200).  The next
    [POST /embed] runs the loader again, once ([create_model_and_transforms]
    is called once more when the libraries are imported, and the loader
    raises at once when they are not), and when that attempt raises too
    the request is answered with status 500 and the loader's message. *)
Theorem startup_failure_deferred
    (image : UploadFile) (s0 : State) (e0 : Exn) :
  _load_model E (module_init E) = (s0, Raised e0) ->
  on_startup E (module_init E) =
    (logged s0
       [Printed stderr ("[startup] Model load failed: " ++ str e0)%string],
     Returned tt)
  /\ MODEL (started E) = None
  /\ status (snd (app E GET_health (started E))) = 200
  /\ let s' := fst (app E (POST_embed image) (started E)) in
     let resp := snd (app E (POST_embed image) (started E)) in
     load_count (trace s') =
       load_count (trace (started E)) + (if open_clip_is_None E then 0 else 1)
     /\ match snd (_load_model E (started E)) with
        | Raised e =>
            resp = {| status := 500;
                      body := DetailBody
                                ("Model not available: " ++ str e)%string |}
        | Returned _ => MODEL s' <> None
        end.
Proof.
  intros Hload.
  assert (Hstart : on_startup E (module_init E) =
    (logged s0
       [Printed stderr ("[startup] Model load failed: " ++ str e0)%string],
     Returned tt)).
  { unfold on_startup, try_except. rewrite Hload. reflexivity. }
  assert (Hnone : MODEL (started E) = None).
  { unfold started. rewrite Hstart. simpl.
    now destruct (load_raises_keeps_globals _ _ _ Hload) as [-> _]. }
  split; [exact Hstart|]. split; [exact Hnone|]. split; [reflexivity|].
  cbv zeta.
  destruct (embed_after_load image (started E)) as (Hm & _ & Hc).
  split; [rewrite Hc; now apply load_count_step|].
  destruct (_load_model E (started E)) as [s1 [u|e]] eqn:Hnext;
    cbn [fst snd] in *.
  - rewrite Hm. destruct (load_returns_model _ _ _ Hnext) as [m ->].
    discriminate.
  - now rewrite (embed_load_raises image _ _ _ Hnext).
Qed.

(** ** The image handed to the model *)



(** Under PIL's contract for [convert], the only image a request hands
    to the transform is the converted one, and every forward pass comes
    after it. *)
Lemma preprocess_only_converted
    (image : UploadFile) (s : State) (data : bytes) (opened pil : Image) :
  (forall img to r, convert E img to = Returned r -> mode r = to) ->
  read image = Returned data ->
  Image_open E data = Returned opened ->
  convert E opened "RGB" = Returned pil ->
  let evs := events_since s (fst (app E (POST_embed image) s)) in
  mode pil = "RGB" /\ channels pil = 3
  /\ (forall img, In (Preprocess img) evs -> img = pil)
  /\ (forall i, nth_error evs i = Some EncodeImage ->
        exists j, j < i /\ nth_error evs j = Some (Preprocess pil)).
Proof.
  intros Hpil Hread Hopen Hconv. cbv zeta.
  assert (Hmode : mode pil = "RGB") by exact (Hpil _ _ _ Hconv).
  split; [exact Hmode|]. split; [unfold channels; now rewrite Hmode|].
  destruct (load_trace s) as [n Hn].
  unfold_embed.
  destruct (_load_model E s) as [s1 [[]|e']]; cbn [fst] in Hn; unfold_embed.
  - rewrite Hread. unfold_embed. rewrite Hopen. unfold_embed.
    rewrite Hconv. unfold_embed.
    repeat (innermost_match; unfold_embed).
    all: erewrite events_since_app
      by (unfold logged; cbn [trace fst]; rewrite Hn, <- ?app_assoc;
          reflexivity).
    all: destruct n as [|[|[|[|n]]]]; cbn [firstn load_events app].
    all: split;
      [ intros img Hin; cbn [In] in Hin;
        repeat (destruct Hin as [Hin|Hin]; try discriminate Hin);
        try contradiction; congruence
      | intros i Hi;
        do 12 (try (destruct i as [|i]; cbn [nth_error] in Hi;
                    try discriminate Hi));
        index_upto 8 ].
  - erewrite events_since_app
      by (unfold logged; cbn [trace fst]; rewrite Hn, <- ?app_assoc;
          reflexivity).
    destruct n as [|[|[|[|n]]]]; cbn [firstn load_events app].
    all: split;
      [ intros img Hin; cbn [In] in Hin;
        repeat (destruct Hin as [Hin|Hin]; try discriminate Hin);
        contradiction
      | intros i Hi;
        do 5 (try (destruct i as [|i]; cbn [nth_error] in Hi;
                   try discriminate Hi)) ].
Qed.

(** ** Normalisation when the norm is zero *)

Lemma div_zero_by_zero (x n : float32) :
  is_zero x = true -> is_zero n = true -> float32_div x n = S754_nan.
Proof. destruct x, n; simpl; intros; try discriminate; reflexivity. Qed.

Lemma div_by_zero (x n : float32) :
  is_zero n = true ->
  is_nan (float32_div x n) = true \/ is_infinity (float32_div x n) = true.
Proof. destruct x, n; simpl; intros; try discriminate; auto. Qed.

Lemma map_div_zero (n : float32) (xs : list float32) :
  is_zero n = true -> forallb is_zero xs = true ->
  map (fun x => float32_div x n) xs = repeat S754_nan (List.length xs).
Proof.
  intros Hn. induction xs as [|x xs IH]; simpl; [reflexivity|].
  intros Hall. apply andb_prop in Hall. destruct Hall as [Hx Hxs].
  now rewrite (div_zero_by_zero x n Hx Hn), (IH Hxs).
Qed.

(** C4, as the code has it.  With a norm that is exactly zero the
    normalisation step raises nothing and does not hand the features
    back: it divides every component by zero under IEEE-754 rules.  The
    result has the length of the feature vector, each of its components
    is a NaN or an infinity, and an all-zero feature vector becomes the
    all-NaN vector.  The service does not crash on it: the request is
    answered with status 200, 400 or 500 like any other. *)
Theorem zero_norm_gives_nan
    (feats : list float32) (image : UploadFile) (s : State) :
  is_zero (norm E feats) = true ->
  List.length (normalize E feats) = List.length feats
  /\ Forall (fun y => is_nan y = true \/ is_infinity y = true)
       (normalize E feats)
  /\ (forallb is_zero feats = true ->
      normalize E feats = repeat S754_nan (List.length feats))
  /\ (let resp := snd (app E (POST_embed image) s) in
      status resp = 200 \/ status resp = 400 \/ status resp = 500).
Proof.
  intros Hz. split; [apply normalize_length|]. split; [|split].
  - unfold normalize. apply Forall_forall. intros y Hy.
    apply in_map_iff in Hy. destruct Hy as (x & <- & _).
    now apply div_by_zero.
  - intros Hall. unfold normalize. now apply map_div_zero.
  - apply embed_status.
Qed.

(** ** Normalisation when the norm is accurate *)

(** C1, as the code has it.  A 200 answer of [POST /embed] carries the
    quotients of the features the loaded model returned by their norm
    as torch computed it, as many numbers as the model returned.  The
    code checks neither the norm nor the quotients, so the norm of the
    answer is near 1 only as far as torch's norm is accurate: when the
    features are numbers and [feats.norm] is a positive number within
    relative error [delta] of their Euclidean norm, and [tol] leaves
    room for [delta] and for the rounding of the divisions, the
    Euclidean norm of the embedding is within [tol] of 1.  When the
    norm overflows to an infinity the embedding is all zeros and its
    norm is not within any tolerance below 1. *)
Theorem embed_unit_norm
    (image : UploadFile) (s : State) (tol delta : Q) :
  let s1 := fst (_load_model E s) in
  let resp := snd (app E (POST_embed image) s) in
  status resp = 200 ->
  exists (data : bytes) (pil : Image) (m : Model) (x : Tensor)
         (feats : list float32),
    read image = Returned data
    /\ decode E data = Returned pil
    /\ MODEL s1 = Some m
    /\ encode_image E m x = Returned feats
    /\ body resp =
         EmbedBody (normalize E feats) (Z.of_nat (List.length feats))
           (MODEL_NAME E) (PRETRAINED E)
    /\ List.length (normalize E feats) = List.length feats
    /\ (accurate_norm delta feats (norm E feats) = true ->
        within_budget tol delta (List.length feats) = true ->
        unit_norm tol (normalize E feats) = true)
    /\ (forallb is_finite feats = true ->
        is_infinity (norm E feats) = true ->
        forallb is_zero (normalize E feats) = true
        /\ ((tol < 1)%Q -> unit_norm tol (normalize E feats) = false)).
Proof.
  cbv zeta. intros Hok.
  destruct (embed_success image s Hok) as (m & x & feats & Hm & Henc & Hbody).
  destruct (embed_success_decoded image s Hok) as (data & pil & Hread & Hdec).
  exists data, pil, m, x, feats.
  split; [exact Hread|]. split; [exact Hdec|].
  split; [exact Hm|]. split; [exact Henc|]. split; [exact Hbody|].
  split; [apply normalize_length|]. split.
  - intros Hacc Hbudget. unfold normalize.
    now apply normalize_unit_norm with (delta := delta).
  - intros Hfin Hinf.
    assert (Hz : forallb is_zero (normalize E feats) = true)
      by (unfold normalize; now apply map_div_infinity).
    split; [exact Hz|]. intros Htol. now apply zeros_not_unit_norm.
Qed.

End Facts.

(** * The service on concrete worlds *)

Example healthy_embed :
  snd (app Demo.healthy (POST_embed Demo.png) (started Demo.healthy)) =
    {| status := 200;
       body := EmbedBody
                 [S754_finite false 10066330 (-24);
                  S754_finite false 13421773 (-24)]
                 2 "ViT-B-32" "openai" |}.
Proof. reflexivity. Qed.

Example healthy_loads_once :
  _load_model Demo.healthy (started Demo.healthy) =
    (started Demo.healthy, Returned tt)
  /\ MODEL (started Demo.healthy) = Some 0
  /\ load_count (trace (fst (lifetime Demo.healthy Demo.session))) = 1.
Proof. repeat split. Qed.

Example late_weights_second_attempt :
  MODEL (started Demo.late_weights) = None
  /\ MODEL (fst (app Demo.late_weights (POST_embed Demo.png)
                   (started Demo.late_weights))) = Some 1
  /\ status (snd (app Demo.late_weights (POST_embed Demo.png)
                    (started Demo.late_weights))) = 200.
Proof. repeat split. Qed.

Example zero_features_request :
  snd (app Demo.zero_features (POST_embed Demo.png)
         (started Demo.zero_features)) =
    {| status := 500;
       body := DetailBody
         "Embedding failed: Out of range float values are not JSON compliant" |}.
Proof. reflexivity. Qed.

Example session_statuses :
  map status (snd (lifetime Demo.healthy Demo.session)) =
    [200; 200; 200; 400; 200].
Proof. reflexivity. Qed.

(** ** Instances of the theorems above *)

Lemma config_stable_witness :
  nth_error Demo.session 0 = Some GET_config
  /\ nth_error Demo.session 4 = Some GET_config
  /\ nth_error (snd (lifetime Demo.healthy Demo.session)) 0 =
       nth_error (snd (lifetime Demo.healthy Demo.session)) 4
  /\ nth_error (snd (lifetime Demo.healthy Demo.session)) 0 =
       Some {| status := 200;
               body := ConfigBody "ViT-B-32" "openai" "cpu" |}.
Proof.
  split; [reflexivity|]. split; [reflexivity|].
  exact (config_stable Demo.healthy Demo.session (started Demo.healthy) 0 4
           eq_refl eq_refl).
Defined.

Lemma embed_response_dim_witness :
  status (snd (app Demo.healthy (POST_embed Demo.png)
                 (started Demo.healthy))) = 200
  /\ exists embedding : list float32,
       body (snd (app Demo.healthy (POST_embed Demo.png)
                    (started Demo.healthy))) =
         EmbedBody embedding (Z.of_nat (List.length embedding))
           (MODEL_NAME Demo.healthy) (PRETRAINED Demo.healthy).
Proof.
  split; [reflexivity|].
  apply (embed_response_dim Demo.healthy Demo.png (started Demo.healthy)
           (fst (app Demo.healthy (POST_embed Demo.png)
                   (started Demo.healthy))));
    reflexivity.
Defined.

Lemma undecodable_upload_rejected_witness :
  decode Demo.healthy [] = Raised (Exception "cannot identify image file")
  /\ forward_count
       (trace (fst (app Demo.healthy (POST_embed Demo.empty_upload)
                      (started Demo.healthy)))) =
     forward_count (trace (started Demo.healthy))
  /\ snd (app Demo.healthy (POST_embed Demo.empty_upload)
            (started Demo.healthy)) =
       {| status := 400;
          body := DetailBody "Invalid image: cannot identify image file" |}.
Proof.
  split; [reflexivity|].
  exact (undecodable_upload_rejected Demo.healthy Demo.empty_upload
           (started Demo.healthy) []
           (Exception "cannot identify image file") eq_refl eq_refl).
Defined.

(** C2 as it was stated fails when the libraries are missing: the empty
    upload does not decode, and the answer is 500, not 400. *)
Lemma undecodable_upload_without_model :
  read Demo.empty_upload = Returned []
  /\ decode Demo.no_library [] = Raised (Exception "cannot identify image file")
  /\ snd (app Demo.no_library (POST_embed Demo.empty_upload)
            (started Demo.no_library)) =
       {| status := 500;
          body := DetailBody
            "Model not available: torch/open_clip not available. Please install dependencies." |}
  /\ Nat.eqb
       (status (snd (app Demo.no_library (POST_embed Demo.empty_upload)
                       (started Demo.no_library)))) 400 = false.
Proof. repeat split. Qed.

Lemma startup_failure_deferred_witness :
  _load_model Demo.no_weights (module_init Demo.no_weights) =
    (logged (module_init Demo.no_weights)
       (firstn 2 (load_events Demo.no_weights)),
     Raised (Exception "pretrained weights not found"))
  /\ MODEL (started Demo.no_weights) = None
  /\ status (snd (app Demo.no_weights GET_health (started Demo.no_weights)))
     = 200
  /\ load_count
       (trace (fst (app Demo.no_weights (POST_embed Demo.png)
                      (started Demo.no_weights)))) = 2
  /\ snd (app Demo.no_weights (POST_embed Demo.png)
            (started Demo.no_weights)) =
       {| status := 500;
          body := DetailBody
                    "Model not available: pretrained weights not found" |}.
Proof.
  split; [reflexivity|].
  pose proof (startup_failure_deferred Demo.no_weights Demo.png
                (logged (module_init Demo.no_weights)
                   (firstn 2 (load_events Demo.no_weights)))
                (Exception "pretrained weights not found") eq_refl)
    as (_ & Hnone & Hhealth & Hcount & Hresp).
  split; [exact Hnone|]. split; [exact Hhealth|].
  split; [exact Hcount | exact Hresp].
Defined.

Lemma zero_norm_gives_nan_witness :
  is_zero (norm Demo.zero_features [S754_zero false; S754_zero false]) = true
  /\ normalize Demo.zero_features [S754_zero false; S754_zero false] =
       [S754_nan; S754_nan].
Proof.
  split; [reflexivity|].
  pose proof (zero_norm_gives_nan Demo.zero_features
                [S754_zero false; S754_zero false] Demo.png
                (started Demo.zero_features) eq_refl)
    as (_ & _ & Hnan & _).
  exact (Hnan eq_refl).
Defined.

(** C4 as it was stated fails on an all-zero feature vector: its norm
    is zero, the step returns, and what it returns is not the zero
    vector. *)
Lemma zero_norm_not_passed_through :
  is_zero (norm Demo.zero_features [S754_zero false; S754_zero false]) = true
  /\ normalize Demo.zero_features [S754_zero false; S754_zero false] =
       [S754_nan; S754_nan]
  /\ forallb is_zero
       (normalize Demo.zero_features [S754_zero false; S754_zero false])
     = false.
Proof. repeat split. Qed.

Lemma embed_unit_norm_witness :
  status (snd (app Demo.healthy (POST_embed Demo.png)
                 (started Demo.healthy))) = 200
  /\ accurate_norm (1 # 200000) [Demo.of_Z 3; Demo.of_Z 4]
       (norm Demo.healthy [Demo.of_Z 3; Demo.of_Z 4]) = true
  /\ within_budget (1 # 100000) (1 # 200000) 2 = true
  /\ body (snd (app Demo.healthy (POST_embed Demo.png)
                  (started Demo.healthy))) =
       EmbedBody (normalize Demo.healthy [Demo.of_Z 3; Demo.of_Z 4]) 2
         "ViT-B-32" "openai"
  /\ unit_norm (1 # 100000)
       (normalize Demo.healthy [Demo.of_Z 3; Demo.of_Z 4]) = true.
Proof.
  split; [reflexivity|]. split; [vm_compute; reflexivity|].
  split; [vm_compute; reflexivity|].
  destruct (embed_unit_norm Demo.healthy Demo.png (started Demo.healthy)
              (1 # 100000) (1 # 200000) eq_refl)
    as (data & pil & m & x & feats & _ & _ & _ & Henc & Hbody & _ & Hunit & _).
  injection Henc as <-.
  split; [exact Hbody|].
  apply Hunit; vm_compute; reflexivity.
Defined.

(** C1 as it was stated fails when the norm overflows: the features
    (2^100, 2^100) are binary32 numbers, the image decodes and the model
    is loaded, their norm is computed as +infinity, and the request is
    answered 200 with the embedding (0, 0), whose norm is 0. *)
Lemma huge_features_not_unit_norm :
  read Demo.png = Returned Demo.png_bytes
  /\ decode Demo.huge_features Demo.png_bytes = Returned Demo.rgb
  /\ MODEL (started Demo.huge_features) = Some 0
  /\ forallb is_finite [Demo.of_Z (2 ^ 100); Demo.of_Z (2 ^ 100)] = true
  /\ norm Demo.huge_features [Demo.of_Z (2 ^ 100); Demo.of_Z (2 ^ 100)] =
       S754_infinity false
  /\ snd (app Demo.huge_features (POST_embed Demo.png)
            (started Demo.huge_features)) =
       {| status := 200;
          body := EmbedBody [S754_zero false; S754_zero false] 2
                    "ViT-B-32" "openai" |}
  /\ sum_squares [S754_zero false; S754_zero false] = 0%Q
  /\ unit_norm (1 # 100000) [S754_zero false; S754_zero false] = false.
Proof. repeat split. Qed.

(** The budget at the dimension of ViT-B-32, for a norm accurate to
    five parts in a million. *)
Example budget_at_512 : within_budget (1 # 100000) (1 # 200000) 512 = true.
Proof. vm_compute. reflexivity. Qed.

(** * Further properties of the routes *)

Section Routes.

Context {Model Transform Tensor : Type}.
Variable E : Env Model Transform Tensor.

#[local] Abbreviation State := (State Model Transform).

(** ** [GET /models] *)

Lemma models_cases (s : State) :
  app E GET_models s =
    if open_clip_is_None E then
      (s, {| status := 500; body := DetailBody "open_clip not available" |})
    else
      match list_pretrained E with
      | Returned table =>
          (logged s [ListPretrained],
           {| status := 200; body := ModelsBody table |})
      | Raised e =>
          (logged s [ListPretrained],
           {| status := 500;
              body := DetailBody ("Failed to list models: " ++ str e)%string |})
      end.
Proof.
  unfold app, route_dict, models, try_except, bind, call, emit, lift, raise, ret.
  destruct (open_clip_is_None E); [reflexivity|].
  now destruct (list_pretrained E).
Qed.

Lemma models_leaves_registry_aux (s : State) :
  MODEL (fst (app E GET_models s)) = MODEL s
  /\ PREPROCESS (fst (app E GET_models s)) = PREPROCESS s
  /\ load_count (trace (fst (app E GET_models s))) = load_count (trace s).
Proof.
  rewrite models_cases. destruct (open_clip_is_None E); [now repeat split|].
  destruct (list_pretrained E); simpl; repeat split; count_events.
Qed.

(** X1.  [GET /models] never touches the model registry: [MODEL] and
    [PREPROCESS] stay as they are and neither the loader nor the forward
    pass runs.  It answers 200 exactly when open_clip was imported and
    [list_pretrained] returns, and then with the table that call
    returned; with open_clip missing, [list_pretrained] is not called. *)
Theorem models_leaves_registry (s : State) :
  let s' := fst (app E GET_models s) in
  let resp := snd (app E GET_models s) in
  MODEL s' = MODEL s /\ PREPROCESS s' = PREPROCESS s
  /\ load_count (trace s') = load_count (trace s)
  /\ forward_count (trace s') = forward_count (trace s)
  /\ (status resp = 200 <->
      open_clip_is_None E = false
      /\ exists table, list_pretrained E = Returned table
                       /\ body resp = ModelsBody table)
  /\ (if open_clip_is_None E then s' = s else trace s' = trace s ++ [ListPretrained]).
Proof.
  cbv zeta. rewrite models_cases.
  destruct (open_clip_is_None E).
  - simpl. repeat split; try reflexivity; try discriminate.
    intros [H _]. discriminate.
  - destruct (list_pretrained E) as [table|e]; simpl.
    + repeat split; try reflexivity; try count_events. eauto.
    + repeat split; try reflexivity; try count_events; try discriminate.
      intros (_ & table & H & _). discriminate.
Qed.

(** ** Which requests reach the loader *)

Lemma other_routes_keep_registry (r : Request) (s : State) :
  is_POST_embed r = false ->
  MODEL (fst (app E r s)) = MODEL s
  /\ PREPROCESS (fst (app E r s)) = PREPROCESS s
  /\ load_count (trace (fst (app E r s))) = load_count (trace s).
Proof.
  destruct r as [| | |image]; intros Hr; try discriminate Hr.
  - now repeat split.
  - destruct (models_leaves_registry_aux s) as (H1 & H2 & H3). auto.
  - now repeat split.
Qed.

(** What one [POST /embed] adds to the load count. *)
Lemma embed_load_count (image : UploadFile) (s : State) :
  load_count (trace (fst (app E (POST_embed image) s))) =
    load_count (trace s)
    + match MODEL s with
      | Some _ => 0
      | None => if open_clip_is_None E then 0 else 1
      end.
Proof.
  destruct (embed_after_load E image s) as (_ & _ & ->).
  destruct (MODEL s) as [m|] eqn:Hm.
  - destruct (import_error E) as [e|] eqn:Hi.
    + rewrite (load_without_library E s e Hi). simpl. lia.
    + rewrite (load_when_loaded E s m Hi Hm). simpl. lia.
  - now apply load_count_step.
Qed.

(** A request that ends with no model loaded started with none. *)
Lemma app_none_backwards (r : Request) (s : State) :
  MODEL (fst (app E r s)) = None -> MODEL s = None.
Proof.
  intros H. destruct (MODEL s) as [m|] eqn:Hm; [|reflexivity].
  destruct (app_keeps_model E r s m Hm) as [H1 _]. congruence.
Qed.

(** X2.  Only [POST /embed] reaches the loader, and each one makes at most
    one load attempt: a run calls [create_model_and_transforms] at most
    once per [POST /embed].  When torch and open_clip are imported and
    the run ends with no model loaded, every [POST /embed] of the run
    made exactly one attempt: a failed load is tried again by each
    later request, never by [/health], [/config] or [/models]. *)
Theorem only_embed_attempts_load (rs : list Request) (s : State) :
  load_count (trace (fst (serve E rs s)))
    <= load_count (trace s) + embed_requests rs
  /\ (open_clip_is_None E = false ->
      MODEL (fst (serve E rs s)) = None ->
      load_count (trace (fst (serve E rs s)))
        = load_count (trace s) + embed_requests rs).
Proof.
  revert s. induction rs as [|r rs IH]; intros s.
  - simpl. split; [lia|]. intros _ _. unfold embed_requests. simpl. lia.
  - simpl. destruct (IH (fst (app E r s))) as [IH1 IH2].
    destruct (app E r s) as [s1 resp] eqn:Happ. cbn [fst snd] in *.
    destruct (serve E rs s1) as [s2 resps] eqn:Hs. cbn [fst snd] in *.
    assert (Hstep : load_count (trace s1) =
                    load_count (trace s)
                    + (if is_POST_embed r
                       then match MODEL s with
                            | Some _ => 0
                            | None => if open_clip_is_None E then 0 else 1
                            end
                       else 0)).
    { destruct (is_POST_embed r) eqn:Hr.
      - destruct r; try discriminate Hr.
        pose proof (embed_load_count image s) as H. now rewrite Happ in H.
      - destruct (other_routes_keep_registry r s Hr) as (_ & _ & H).
        rewrite Happ in H. simpl in H. lia. }
    unfold embed_requests in *. cbn [filter].
    destruct (is_POST_embed r) eqn:Hr; cbn [List.length] in *.
    + split.
      * destruct (MODEL s); [lia|]. destruct (open_clip_is_None E); lia.
      * intros Hlib Hnone. specialize (IH2 Hlib Hnone).
        assert (H1 : MODEL s1 = None).
        { destruct (MODEL s1) as [m|] eqn:Hm; [|reflexivity].
          destruct (serve_keeps_model E rs s1 m Hm) as [H _].
          rewrite Hs in H. simpl in H. congruence. }
        assert (H0 : MODEL s = None).
        { apply (app_none_backwards r). now rewrite Happ. }
        rewrite H0, Hlib in Hstep. lia.
    + split; [lia|]. intros Hlib Hnone. specialize (IH2 Hlib Hnone). lia.
Qed.

(** ** With torch and open_clip missing *)

(** X3.  When the import of torch/open_clip failed, no request changes the
    state: nothing is loaded, no upload is read and no library is
    called, whatever is requested and however often.  [/health] and
    [/config] answer 200, [/models] and [/embed] answer 500. *)
Theorem without_library_nothing_runs
    (rs : list Request) (s : State) (e : Exn) :
  import_error E = Some e ->
  fst (serve E rs s) = s
  /\ map status (snd (serve E rs s)) =
       map (fun r => match r with
                     | GET_health | GET_config => 200
                     | GET_models | POST_embed _ => 500
                     end) rs.
Proof.
  intros Hi. induction rs as [|r rs IH]; [now split|].
  assert (Happ : fst (app E r s) = s
                 /\ status (snd (app E r s)) =
                      match r with
                      | GET_health | GET_config => 200
                      | GET_models | POST_embed _ => 500
                      end).
  { destruct r as [| | |image].
    - now split.
    - rewrite models_cases. unfold open_clip_is_None. rewrite Hi. now split.
    - now split.
    - rewrite (embed_load_raises E image s s _ (load_without_library E s e Hi)).
      now split. }
  simpl. destruct (app E r s) as [s1 resp]. simpl in Happ.
  destruct Happ as [-> Hst].
  destruct (serve E rs s) as [s2 resps]. simpl in *.
  destruct IH as [-> ->]. now rewrite Hst.
Qed.

(** ** The registry over a whole run *)

Lemma load_keeps_registry_ok (s : State) :
  registry_ok E s = true -> registry_ok E (fst (_load_model E s)) = true.
Proof.
  intros Hok. destruct (import_error E) as [e|] eqn:Hi.
  - now rewrite (load_without_library E s e Hi).
  - destruct (MODEL s) as [m|] eqn:Hm.
    + now rewrite (load_when_loaded E s m Hi Hm).
    + rewrite (load_when_empty E s Hi Hm).
      destruct (create_model_and_transforms E _ _ _ _) as [[model pre]|e1].
      * destruct (model_eval E model) as [[]|e1]; simpl.
        -- unfold registry_ok, open_clip_is_None. simpl. now rewrite Hi.
        -- exact Hok.
      * exact Hok.
Qed.

Lemma app_keeps_registry_ok (r : Request) (s : State) :
  registry_ok E s = true -> registry_ok E (fst (app E r s)) = true.
Proof.
  intros Hok. destruct (is_POST_embed r) eqn:Hr.
  - destruct r; try discriminate Hr.
    destruct (embed_after_load E image s) as (H1 & H2 & _).
    pose proof (load_keeps_registry_ok s Hok) as H.
    unfold registry_ok in *. now rewrite H1, H2.
  - destruct (other_routes_keep_registry r s Hr) as (H1 & H2 & _).
    unfold registry_ok in *. now rewrite H1, H2.
Qed.

Lemma serve_keeps_registry_ok (rs : list Request) :
  forall s : State,
    registry_ok E s = true -> registry_ok E (fst (serve E rs s)) = true.
Proof.
  induction rs as [|r rs IH]; intros s Hok; [exact Hok|].
  simpl. pose proof (app_keeps_registry_ok r s Hok) as H1.
  destruct (app E r s) as [s1 resp]. simpl in H1.
  pose proof (IH s1 H1) as H2.
  now destruct (serve E rs s1) as [s2 resps].
Qed.

Lemma started_registry_ok : registry_ok E (started E) = true.
Proof.
  unfold started, on_startup, try_except, emit.
  assert (H : registry_ok E (module_init E) = true) by reflexivity.
  apply load_keeps_registry_ok in H.
  now destruct (_load_model E (module_init E)) as [s1 [[]|e]].
Qed.

(** X4.  In every state a run of the server reaches, from start-up on and
    whatever the requests and the answers of the libraries, [MODEL] and
    [PREPROCESS] are set together or not at all, and they are set only
    if torch and open_clip were imported. *)
Theorem registry_stays_consistent (rs : list Request) :
  registry_ok E (fst (lifetime E rs)) = true.
Proof.
  unfold lifetime. apply serve_keeps_registry_ok, started_registry_ok.
Qed.

Lemma started_load_count (m : Model) :
  MODEL (started E) = Some m -> load_count (trace (started E)) = 1.
Proof.
  unfold started, on_startup, try_except, emit.
  destruct (import_error E) as [e|] eqn:Hi.
  - rewrite (load_without_library E _ e Hi). discriminate.
  - rewrite (load_when_empty E (module_init E) Hi eq_refl).
    assert (Ht : trace (module_init E) = [])
      by (unfold module_init; simpl; now rewrite Hi).
    destruct (create_model_and_transforms E _ _ _ _) as [[model pre]|e1].
    + destruct (model_eval E model) as [[]|e1]; cbn [fst logged MODEL trace].
      * intros _. now rewrite Ht.
      * discriminate.
    + cbn [fst logged MODEL trace]. discriminate.
Qed.

(** X5.  When the load at start-up goes through, that model serves the whole
    run: after any requests [MODEL] still holds the same instance and
    [create_model_and_transforms] was called once in all. *)
Theorem startup_model_serves_the_run (rs : list Request) (m : Model) :
  MODEL (started E) = Some m ->
  MODEL (fst (lifetime E rs)) = Some m
  /\ load_count (trace (fst (lifetime E rs))) = 1.
Proof.
  intros Hm. unfold lifetime.
  destruct (serve_keeps_model E rs (started E) m Hm) as [H1 H2].
  split; [exact H1|]. rewrite H2. now apply (started_load_count m).
Qed.

(** ** The decoder and the image it hands on *)

(** After a load that returns from a consistent registry, the transform
    is there. *)
Lemma load_returns_transform (s s1 : State) (u : unit) :
  registry_ok E s = true ->
  _load_model E s = (s1, Returned u) ->
  exists f, PREPROCESS s1 = Some f.
Proof.
  intros Hok Hload.
  pose proof (load_keeps_registry_ok s Hok) as H1. rewrite Hload in H1.
  destruct (load_returns_model E _ _ _ Hload) as [m Hm].
  cbn [fst] in H1. unfold registry_ok in H1. rewrite Hm in H1.
  destruct (PREPROCESS s1) as [f|]; [now exists f|discriminate].
Qed.

(** C10.  Whatever the colour mode of the image [Image.open] returns for
    the uploaded bytes, a request whose load attempt returns reads the
    upload, opens it, converts it with [convert("RGB")] and hands the
    converted image, and no other, to the registry's transform, all
    before any forward pass; under PIL's contract for [convert] (the
    result has the mode asked for) that image has mode RGB and three
    channels.  When the load attempt raises, nothing is decoded and no
    inference follows.  The registry is taken as the server keeps it:
    model and transform set together. *)
Theorem preprocess_receives_rgb
    (image : UploadFile) (s : State) (data : bytes) (opened pil : Image) :
  (forall img to r, convert E img to = Returned r -> mode r = to) ->
  registry_ok E s = true ->
  read image = Returned data ->
  Image_open E data = Returned opened ->
  convert E opened "RGB" = Returned pil ->
  let s1 := fst (_load_model E s) in
  let s' := fst (app E (POST_embed image) s) in
  mode pil = "RGB" /\ channels pil = 3
  /\ match snd (_load_model E s) with
     | Returned _ =>
         exists (f : Transform) (rest : list Event),
           PREPROCESS s1 = Some f
           /\ events_since s1 s' =
                Read :: ImageOpen data :: Convert opened "RGB"
                  :: Preprocess pil :: rest
           /\ (forall img, In (Preprocess img) rest -> False)
     | Raised _ => events_since s1 s' = []
     end
  /\ (forall img, In (Preprocess img) (events_since s s') -> img = pil)
  /\ (forall i, nth_error (events_since s s') i = Some EncodeImage ->
        exists j, j < i
                  /\ nth_error (events_since s s') j = Some (Preprocess pil)).
Proof.
  intros Hpil Hok Hread Hopen Hconv. cbv zeta.
  destruct (preprocess_only_converted E image s data opened pil
              Hpil Hread Hopen Hconv) as (Hmode & Hch & Honly & Hbefore).
  split; [exact Hmode|]. split; [exact Hch|].
  split; [|split; [exact Honly | exact Hbefore]].
  unfold_embed.
  destruct (_load_model E s) as [s1 [u|e']] eqn:Hload; unfold_embed.
  - destruct (load_returns_transform s s1 u Hok Hload) as [f Hf].
    rewrite Hread. unfold_embed. rewrite Hopen. unfold_embed.
    rewrite Hconv. unfold_embed. cbn [logged PREPROCESS]. rewrite Hf.
    unfold_embed.
    repeat (innermost_match; unfold_embed).
    all: erewrite events_since_app
      by (unfold logged; cbn [trace fst]; rewrite <- ?app_assoc; reflexivity).
    all: cbn [app].
    all: exists f; eexists; split; [reflexivity|]; split; [reflexivity|].
    all: intros img Hin; cbn [In] in Hin;
      repeat (destruct Hin as [Hin|Hin]; try discriminate Hin);
      contradiction.
  - apply events_since_app. now rewrite app_nil_r.
Qed.

(** ** Errors never leave a route unstructured *)

(** X6.  No route lets an exception escape to the framework: every answer is
    either a 200 with the route's own body or an error with a [detail]
    message, never the framework's bare 500.  Errors are 500, except
    that [POST /embed] also answers 400. *)
Theorem errors_are_structured (r : Request) (s : State) :
  match body (snd (app E r s)) with
  | DetailBody _ =>
      status (snd (app E r s)) = 500
      \/ (status (snd (app E r s)) = 400 /\ is_POST_embed r = true)
  | InternalServerError => False
  | _ => status (snd (app E r s)) = 200
  end.
Proof.
  destruct r as [| | |image].
  - reflexivity.
  - rewrite models_cases. destruct (open_clip_is_None E); simpl; auto.
    destruct (list_pretrained E); simpl; auto.
  - reflexivity.
  - run_route; auto.
Qed.

(** ** When [POST /embed] answers 400 *)

(** X7.  [POST /embed] answers 400 exactly when the load attempt returned and
    the upload could not be read or did not decode.  A failure of the
    loader or of the inference block is never reported as 400. *)
Theorem bad_request_iff_upload_fails (image : UploadFile) (s : State) :
  status (snd (app E (POST_embed image) s)) = 400 <->
  (exists u, snd (_load_model E s) = Returned u)
  /\ (exists e,
         read image = Raised e
         \/ exists data, read image = Returned data
                         /\ decode E data = Raised e).
Proof.
  unfold decode. unfold_embed.
  destruct (_load_model E s) as [s1 [[]|e']]; unfold_embed.
  - destruct (read image) as [data|e]; unfold_embed.
    + destruct (Image_open E data) as [opened|e] eqn:Hopen; unfold_embed.
      * destruct (convert E opened "RGB") as [pil|e] eqn:Hconv; unfold_embed.
        -- split.
           ++ repeat (innermost_match; unfold_embed); simpl; discriminate.
           ++ intros (_ & e & [H | (d & Hd & H)]); [discriminate H|].
              injection Hd as <-. rewrite Hopen, Hconv in H. discriminate H.
        -- simpl. split; [intros _|reflexivity].
           split; [now exists tt|]. exists e. right. exists data.
           now rewrite Hopen, Hconv.
      * simpl. split; [intros _|reflexivity].
        split; [now exists tt|]. exists e. right. exists data.
        now rewrite Hopen.
    + simpl. split; [intros _|reflexivity].
      split; [now exists tt|]. exists e. now left.
  - simpl. split; [discriminate|]. intros ((u & H) & _). discriminate H.
Qed.

(** ** The forward pass *)

(** X8.  One [POST /embed] runs the model's forward pass at most once, and
    exactly once when it answers 200. *)
Theorem forward_pass_at_most_once (image : UploadFile) (s : State) :
  forward_count (trace (fst (app E (POST_embed image) s)))
    <= forward_count (trace s) + 1
  /\ (status (snd (app E (POST_embed image) s)) = 200 ->
      forward_count (trace (fst (app E (POST_embed image) s)))
        = forward_count (trace s) + 1).
Proof.
  rewrite <- (load_no_forward E s). unfold_embed.
  destruct (_load_model E s) as [s1 [[]|e']]; unfold_embed.
  - repeat (innermost_match; unfold_embed); simpl.
    all: split; [count_events | try discriminate; intros _; count_events].
  - simpl. split; [lia|discriminate].
Qed.

(** X9.  The forward pass only runs with gradients switched off: in the
    events of a request every [encode_image] call comes right after
    [torch.no_grad()] was entered and is followed at once by its exit,
    and the context is left as often as it is entered, also when the
    forward pass raises. *)
Theorem forward_pass_inside_no_grad (image : UploadFile) (s : State) :
  let evs := events_since s (fst (app E (POST_embed image) s)) in
  List.length (filter is_NoGradEnter evs)
    = List.length (filter is_NoGradExit evs)
  /\ (forall i, nth_error evs i = Some EncodeImage ->
        exists k, i = S k
                  /\ nth_error evs k = Some NoGradEnter
                  /\ nth_error evs (S i) = Some NoGradExit).
Proof.
  cbv zeta. destruct (load_trace E s) as [n Hn]. unfold_embed.
  destruct (_load_model E s) as [s1 [[]|e']]; cbn [fst] in Hn; unfold_embed.
  - repeat (innermost_match; unfold_embed).
    all: erewrite events_since_app
      by (unfold logged; cbn [trace fst]; rewrite Hn, <- ?app_assoc;
          reflexivity).
    all: destruct n as [|[|[|[|n]]]]; cbn [firstn load_events app].
    all: split;
      [ reflexivity
      | intros i Hi;
        do 12 (try (destruct i as [|i]; cbn [nth_error] in Hi;
                    try discriminate Hi));
        (eexists; split; [reflexivity | split; reflexivity]) ].
  - erewrite events_since_app
      by (unfold logged; cbn [trace fst]; rewrite Hn, <- ?app_assoc;
          reflexivity).
    destruct n as [|[|[|[|n]]]]; cbn [firstn load_events app].
    all: split;
      [ reflexivity
      | intros i Hi;
        do 5 (try (destruct i as [|i]; cbn [nth_error] in Hi;
                   try discriminate Hi)) ].
Qed.

Lemma cuda_events_need_cuda_device (image : UploadFile) (s : State) :
  In Cuda (events_since s (fst (app E (POST_embed image) s))) ->
  DEVICE E = "cuda".
Proof.
  destruct (load_trace E s) as [n Hn]. unfold_embed.
  destruct (_load_model E s) as [s1 [[]|e']]; cbn [fst] in Hn; unfold_embed.
  - repeat (innermost_match; unfold_embed).
    all: erewrite events_since_app
      by (unfold logged; cbn [trace fst]; rewrite Hn, <- ?app_assoc;
          reflexivity).
    all: destruct n as [|[|[|[|n]]]]; cbn [firstn load_events app].
    all: intros Hin; cbn [In] in Hin;
      repeat (destruct Hin as [Hin|Hin]; try discriminate Hin);
      try contradiction.
    all: now apply String.eqb_eq.
  - erewrite events_since_app
      by (unfold logged; cbn [trace fst]; rewrite Hn, <- ?app_assoc;
          reflexivity).
    destruct n as [|[|[|[|n]]]]; cbn [firstn load_events app].
    all: intros Hin; cbn [In] in Hin;
      repeat (destruct Hin as [Hin|Hin]; try discriminate Hin);
      contradiction.
Qed.

(** X10.  Where the batch goes.  A request calls [.cuda()] only when
    [DEVICE] is the string "cuda".  Every 200 answer is computed by the
    registry's model from the tensor the registry's transform returned
    for the decoded image, with the batch axis added by [unsqueeze(0)]:
    moved by [.cuda()] when [DEVICE] is "cuda", and exactly as
    [unsqueeze] returned it on any other device. *)
Theorem cuda_only_on_cuda_device (image : UploadFile) (s : State) :
  let s1 := fst (_load_model E s) in
  let evs := events_since s (fst (app E (POST_embed image) s)) in
  let resp := snd (app E (POST_embed image) s) in
  (In Cuda evs -> DEVICE E = "cuda")
  /\ (status resp = 200 ->
      exists (f : Transform) (m : Model) (data : bytes) (pil : Image)
             (t x : Tensor) (feats : list float32),
        PREPROCESS s1 = Some f /\ MODEL s1 = Some m
        /\ read image = Returned data /\ decode E data = Returned pil
        /\ transform_call E f pil = Returned t
        /\ (if String.eqb (DEVICE E) "cuda"
            then cuda E (unsqueeze0 E t) = Returned x /\ In Cuda evs
            else x = unsqueeze0 E t)
        /\ encode_image E m x = Returned feats
        /\ body resp =
             EmbedBody (normalize E feats) (Z.of_nat (List.length feats))
               (MODEL_NAME E) (PRETRAINED E)).
Proof.
  cbv zeta. split.
  - apply cuda_events_need_cuda_device.
  - destruct (load_trace E s) as [n Hn]. unfold decode. unfold_embed.
    destruct (_load_model E s) as [s1 [[]|e']]; cbn [fst] in Hn; unfold_embed;
      [|discriminate].
    repeat (innermost_match; unfold_embed); cbn [status]; try discriminate.
    all: intros _.
    all: try (erewrite events_since_app
      by (unfold logged; cbn [trace fst]; rewrite Hn, <- ?app_assoc;
          reflexivity)).
    all: cbn [logged MODEL PREPROCESS] in *.
    all: do 7 eexists.
    all: repeat match goal with
                | |- _ /\ _ => split
                end;
      try eassumption; try reflexivity.
    all: try (rewrite normalize_length; reflexivity).
    all: try (apply in_or_app; right; cbn; tauto).
    all: match goal with
         | H : Image_open E _ = Returned _ |- _ => rewrite H; assumption
         end.
Qed.

(** ** The model that is loaded is the one that is reported *)

Lemma load_events_configured (n : nat) :
  Forall (configured_load E) (firstn n (load_events E)).
Proof.
  destruct n as [|[|[|[|n]]]]; cbn [firstn load_events];
    repeat constructor.
Qed.

Lemma load_keeps_configured (s : State) :
  Forall (configured_load E) (trace s) ->
  Forall (configured_load E) (trace (fst (_load_model E s))).
Proof.
  intros H. destruct (load_trace E s) as [n ->].
  apply Forall_app. split; [exact H | apply load_events_configured].
Qed.

Lemma app_keeps_configured (r : Request) (s : State) :
  Forall (configured_load E) (trace s) ->
  Forall (configured_load E) (trace (fst (app E r s))).
Proof.
  intros H. destruct r as [| | |image].
  - exact H.
  - rewrite models_cases. destruct (open_clip_is_None E); [exact H|].
    destruct (list_pretrained E); simpl; apply Forall_app; split; trivial;
      repeat constructor.
  - exact H.
  - apply load_keeps_configured in H. revert H. unfold_embed.
    destruct (_load_model E s) as [s1 [[]|e']]; unfold_embed; [|trivial].
    intros H. repeat (innermost_match; unfold_embed).
    all: unfold logged; cbn [trace fst].
    all: repeat (apply Forall_app; split); trivial; repeat constructor.
Qed.

Lemma serve_keeps_configured (rs : list Request) :
  forall s : State,
    Forall (configured_load E) (trace s) ->
    Forall (configured_load E) (trace (fst (serve E rs s))).
Proof.
  induction rs as [|r rs IH]; intros s H; [exact H|].
  simpl. pose proof (app_keeps_configured r s H) as H1.
  destruct (app E r s) as [s1 resp]. simpl in H1.
  pose proof (IH s1 H1) as H2.
  now destruct (serve E rs s1) as [s2 resps].
Qed.

Lemma started_configured : Forall (configured_load E) (trace (started E)).
Proof.
  assert (H : Forall (configured_load E) (trace (module_init E))).
  { unfold module_init. simpl. destruct (import_error E); repeat constructor. }
  apply load_keeps_configured in H. revert H.
  unfold started, on_startup, try_except, emit.
  destruct (_load_model E (module_init E)) as [s1 [[]|e]]; simpl; trivial.
  intros H. apply Forall_app. split; trivial. repeat constructor.
Qed.

(** X11.  Every call of [create_model_and_transforms] in a run, at start-up
    or in a request, is made with the model name, pretrained tag and
    device that [GET /config] reports in that run. *)
Theorem loads_use_reported_config
    (rs : list Request) (name pretrained device : string) :
  In (CreateModel name pretrained device) (trace (fst (lifetime E rs))) ->
  snd (app E GET_config (fst (lifetime E rs))) =
    {| status := 200; body := ConfigBody name pretrained device |}.
Proof.
  intros Hin.
  pose proof (serve_keeps_configured rs (started E) started_configured) as H.
  rewrite Forall_forall in H. specialize (H _ Hin).
  destruct H as (-> & -> & ->). reflexivity.
Qed.

(** ** The request that goes through *)

Lemma load_returns_imported (s s1 : State) (u : unit) :
  _load_model E s = (s1, Returned u) -> torch_is_None E = false.
Proof.
  unfold torch_is_None. destruct (import_error E) as [e|] eqn:Hi; [|trivial].
  rewrite (load_without_library E s e Hi). discriminate.
Qed.

(** X12.  When the load attempt returns and every later step returns too, the
    answer is 200 and its embedding is the loaded model's feature row
    for the decoded image, divided by its norm: the registry's transform
    is applied to the RGB image, the batch of one is moved to the GPU
    when [DEVICE] is "cuda", the registry's model encodes it, and [dim]
    is the number of features the model returned.  The model stays in
    the registry. *)
Theorem embed_pipeline
    (image : UploadFile) (s s1 : State) (f : Transform) (m : Model)
    (data : bytes) (pil : Image) (t x : Tensor) (feats : list float32) :
  _load_model E s = (s1, Returned tt) ->
  PREPROCESS s1 = Some f ->
  MODEL s1 = Some m ->
  read image = Returned data ->
  decode E data = Returned pil ->
  transform_call E f pil = Returned t ->
  (if String.eqb (DEVICE E) "cuda"
   then cuda E (unsqueeze0 E t)
   else Returned (unsqueeze0 E t)) = Returned x ->
  encode_image E m x = Returned feats ->
  json_error E
    (EmbedBody (normalize E feats) (Z.of_nat (List.length feats))
       (MODEL_NAME E) (PRETRAINED E)) = None ->
  snd (app E (POST_embed image) s) =
    {| status := 200;
       body := EmbedBody (normalize E feats) (Z.of_nat (List.length feats))
                 (MODEL_NAME E) (PRETRAINED E) |}
  /\ MODEL (fst (app E (POST_embed image) s)) = Some m.
Proof.
  intros Hload Hpre Hmodel Hread Hdec Htr Hdev Henc Hjson.
  pose proof (load_returns_imported _ _ _ Hload) as Htorch.
  unfold decode in Hdec.
  destruct (Image_open E data) as [opened|e] eqn:Hopen; [|discriminate Hdec].
  unfold_embed. rewrite Hload. unfold_embed. rewrite Hread. unfold_embed.
  rewrite Hopen. unfold_embed. rewrite Hdec. unfold_embed.
  cbn [logged PREPROCESS MODEL]. rewrite Hpre. unfold_embed.
  rewrite Htr. unfold_embed.
  destruct (String.eqb (DEVICE E) "cuda"); unfold_embed.
  - rewrite Hdev, Htorch. unfold_embed. cbn [logged MODEL].
    rewrite Hmodel. unfold_embed. rewrite Henc. unfold_embed.
    rewrite normalize_length, Hjson. cbn. now split.
  - injection Hdev as <-. rewrite Htorch. unfold_embed. cbn [logged MODEL].
    rewrite Hmodel. unfold_embed. rewrite Henc. unfold_embed.
    rewrite normalize_length, Hjson. cbn. now split.
Qed.

End Routes.

(** ** Instances on the concrete worlds *)

Example failing_loads_are_retried_per_embed :
  embed_requests Demo.session = 2
  /\ load_count (trace (started Demo.no_weights)) = 1
  /\ load_count (trace (fst (lifetime Demo.no_weights Demo.session))) = 3.
Proof. repeat split. Qed.

Example gpu_request :
  events_since (started gpu_world)
    (fst (app gpu_world (POST_embed Demo.png) (started gpu_world))) =
    [Read; ImageOpen Demo.png_bytes; Convert Demo.grey "RGB";
     Preprocess Demo.rgb; Cuda; NoGradEnter; EncodeImage; NoGradExit].
Proof. reflexivity. Qed.

Lemma without_library_nothing_runs_witness :
  fst (serve Demo.no_library Demo.session (started Demo.no_library)) =
    started Demo.no_library
  /\ map status
       (snd (serve Demo.no_library Demo.session (started Demo.no_library))) =
     [200; 500; 200; 500; 200].
Proof.
  exact (without_library_nothing_runs Demo.no_library Demo.session
           (started Demo.no_library)
           (Exception "No module named 'open_clip'") eq_refl).
Defined.

Lemma startup_model_serves_the_run_witness :
  MODEL (started Demo.healthy) = Some 0
  /\ MODEL (fst (lifetime Demo.healthy Demo.session)) = Some 0
  /\ load_count (trace (fst (lifetime Demo.healthy Demo.session))) = 1.
Proof.
  split; [reflexivity|].
  exact (startup_model_serves_the_run Demo.healthy Demo.session 0 eq_refl).
Defined.

Lemma cuda_only_on_cuda_device_witness :
  In Cuda
    (events_since (started gpu_world)
       (fst (app gpu_world (POST_embed Demo.png) (started gpu_world))))
  /\ DEVICE gpu_world = "cuda"
  /\ status (snd (app gpu_world (POST_embed Demo.png) (started gpu_world)))
     = 200
  /\ exists (f : unit) (m : nat) (data : bytes) (pil t x : Image)
            (feats : list float32),
       PREPROCESS (fst (_load_model gpu_world (started gpu_world))) = Some f
       /\ MODEL (fst (_load_model gpu_world (started gpu_world))) = Some m
       /\ read Demo.png = Returned data
       /\ decode gpu_world data = Returned pil
       /\ transform_call gpu_world f pil = Returned t
       /\ (cuda gpu_world (unsqueeze0 gpu_world t) = Returned x
           /\ In Cuda
                (events_since (started gpu_world)
                   (fst (app gpu_world (POST_embed Demo.png)
                           (started gpu_world)))))
       /\ encode_image gpu_world m x = Returned feats
       /\ body (snd (app gpu_world (POST_embed Demo.png)
                       (started gpu_world))) =
            EmbedBody (normalize gpu_world feats)
              (Z.of_nat (List.length feats))
              (MODEL_NAME gpu_world) (PRETRAINED gpu_world).
Proof.
  assert (H : In Cuda
    (events_since (started gpu_world)
       (fst (app gpu_world (POST_embed Demo.png) (started gpu_world))))).
  { cbv. tauto. }
  split; [exact H|].
  split; [exact (proj1 (cuda_only_on_cuda_device gpu_world Demo.png
                          (started gpu_world)) H)|].
  split; [reflexivity|].
  exact (proj2 (cuda_only_on_cuda_device gpu_world Demo.png
                  (started gpu_world)) eq_refl).
Defined.

Lemma loads_use_reported_config_witness :
  In (CreateModel "ViT-B-32" "openai" "cpu")
    (trace (fst (lifetime Demo.healthy Demo.session)))
  /\ snd (app Demo.healthy GET_config
            (fst (lifetime Demo.healthy Demo.session))) =
       {| status := 200; body := ConfigBody "ViT-B-32" "openai" "cpu" |}.
Proof.
  assert (H : In (CreateModel "ViT-B-32" "openai" "cpu")
                (trace (fst (lifetime Demo.healthy Demo.session)))).
  { cbv. tauto. }
  split; [exact H|].
  exact (loads_use_reported_config Demo.healthy Demo.session
           "ViT-B-32" "openai" "cpu" H).
Defined.

Lemma preprocess_receives_rgb_witness :
  mode Demo.grey = "L"
  /\ registry_ok Demo.healthy (module_init Demo.healthy) = true
  /\ Image_open Demo.healthy Demo.png_bytes = Returned Demo.grey
  /\ convert Demo.healthy Demo.grey "RGB" = Returned Demo.rgb
  /\ mode Demo.rgb = "RGB" /\ channels Demo.rgb = 3
  /\ events_since
       (fst (_load_model Demo.healthy (module_init Demo.healthy)))
       (fst (app Demo.healthy (POST_embed Demo.png)
               (module_init Demo.healthy))) =
     [Read; ImageOpen Demo.png_bytes; Convert Demo.grey "RGB";
      Preprocess Demo.rgb; NoGradEnter; EncodeImage; NoGradExit].
Proof.
  split; [reflexivity|]. split; [reflexivity|]. split; [reflexivity|].
  split; [reflexivity|].
  pose proof (preprocess_receives_rgb Demo.healthy Demo.png
                (module_init Demo.healthy) Demo.png_bytes Demo.grey Demo.rgb)
    as H.
  destruct H as (Hmode & Hch & _).
  - intros img to r Hr. injection Hr as <-. reflexivity.
  - reflexivity.
  - reflexivity.
  - reflexivity.
  - reflexivity.
  - split; [exact Hmode|]. split; [exact Hch|]. reflexivity.
Defined.

Lemma embed_pipeline_witness :
  snd (app Demo.healthy (POST_embed Demo.png) (module_init Demo.healthy)) =
    {| status := 200;
       body := EmbedBody (normalize Demo.healthy [Demo.of_Z 3; Demo.of_Z 4])
                 2 (MODEL_NAME Demo.healthy) (PRETRAINED Demo.healthy) |}
  /\ MODEL (fst (app Demo.healthy (POST_embed Demo.png)
                   (module_init Demo.healthy))) = Some 0.
Proof.
  exact (embed_pipeline Demo.healthy Demo.png (module_init Demo.healthy)
           (fst (_load_model Demo.healthy (module_init Demo.healthy)))
           tt 0 Demo.png_bytes Demo.rgb Demo.rgb Demo.rgb
           [Demo.of_Z 3; Demo.of_Z 4]
           eq_refl eq_refl eq_refl eq_refl eq_refl eq_refl eq_refl eq_refl
           eq_refl).
Defined.

(** * Properties of the example client *)

Section ClientFacts.

Import Client.

Variable W : World.

(** X13.  [main] never raises: whatever fails (opening the file, either
    request, a status check, parsing an answer, an answer that is no
    object, saving the manifest), one of its two handlers prints the
    error and the script ends normally.  It sends at most one upload
    and at most one verification request. *)
Theorem client_never_raises (server file_path : string) :
  snd (main W server file_path []) = Ok tt
  /\ List.length (filter is_PostFiles (fst (main W server file_path []))) <= 1
  /\ List.length (filter is_PostJson (fst (main W server file_path []))) <= 1.
Proof.
  run_script; cbn; repeat split; lia.
Qed.

(** X14.  The verification request goes to [<server>/api/verify], and it is
    sent only after the very manifest it carries was written to
    [<root>_manifest.json], [<root>] being the path of the uploaded file
    without its extension, and that file was closed. *)
Theorem verify_follows_save
    (server file_path : string) (i : nat) (url : string) (payload : JSON) :
  nth_error (fst (main W server file_path [])) i = Some (PostJson url payload) ->
  url = (server ++ "/api/verify")%string
  /\ exists j,
       S j < i
       /\ nth_error (fst (main W server file_path [])) j =
            Some (WriteText
                    (fst (splitext W file_path) ++ "_manifest.json")%string
                    (dumps W payload))
       /\ nth_error (fst (main W server file_path [])) (S j) =
            Some (CloseWrite
                    (fst (splitext W file_path) ++ "_manifest.json")%string).
Proof.
  run_script; cbn [app nth_error].
  all: intros Hi;
    do 15 (try (destruct i as [|i]; cbn [nth_error] in Hi;
                try discriminate Hi)).
  all: injection Hi as <- <-.
  all: split; [reflexivity|].
  all: exists 7; split; [lia|]; split; reflexivity.
Qed.

(** X15.  The script saves a manifest or asks for verification only when the
    upload was answered with a JSON object whose ["success"] entry is
    truthy.  The manifest it then saves and sends is the object's
    ["data"] entry, or the empty object when there is none. *)
Theorem acts_only_on_success (server file_path : string) (ev : Event) :
  In ev (fst (main W server file_path [])) ->
  is_write ev = true \/ is_PostJson ev = true ->
  exists (items : list (string * JSON)) (success : JSON),
    snd (upload_file W server file_path []) = Ok (JObject items)
    /\ lookup "success" items = Some success
    /\ truthy success = true
    /\ forall data,
         data = match lookup "data" items with
                | Some d => d
                | None => JObject []
                end ->
         match ev with
         | WriteText _ text => text = dumps W data
         | PostJson _ payload => payload = data
         | _ => True
         end.
Proof.
  run_script; cbn [app In].
  all: intros Hin Hev;
    repeat (destruct Hin as [Hin|Hin];
            [subst ev; cbn in Hev; destruct Hev; try discriminate|]);
    try contradiction.
  all: try match goal with
           | H : negb (truthy JNull) = false |- _ => cbn in H; discriminate H
           end.
  all: do 2 eexists; split; [reflexivity|].
  all: split; [eassumption|].
  all: split; [now apply negb_false_iff|].
  all: intros data ->;
    repeat match goal with H : lookup _ _ = _ |- _ => rewrite H end;
    first [exact I | congruence].
Qed.

End ClientFacts.

(** ** The client on a concrete server *)

Example accepted_upload :
  fst (Client.main Client.accepting "http://localhost:3000" "cat.png" []) =
    [Client.Printed "Uploading cat.png...";
     Client.OpenRead "cat.png";
     Client.PostFiles "http://localhost:3000/api/upload" "cat.png" [x01; x02];
     Client.CloseRead "cat.png";
     Client.Printed (Client.nl ++ "Manifest received:")%string;
     Client.Printed "{...}";
     Client.OpenWrite "cat_manifest.json";
     Client.WriteText "cat_manifest.json" "{...}";
     Client.CloseWrite "cat_manifest.json";
     Client.Printed (Client.nl ++ "Manifest saved to cat_manifest.json")%string;
     Client.Printed (Client.nl ++ "Verifying manifest...")%string;
     Client.PostJson "http://localhost:3000/api/verify" Client.manifest;
     Client.Printed "Verification result: {...}"].
Proof. reflexivity. Qed.

Example refused_upload :
  fst (Client.main Client.refusing "http://localhost:3000" "cat.png" []) =
    [Client.Printed "Uploading cat.png...";
     Client.OpenRead "cat.png";
     Client.PostFiles "http://localhost:3000/api/upload" "cat.png" [x01; x02];
     Client.CloseRead "cat.png";
     Client.Printed "Error: Unknown error"].
Proof. reflexivity. Qed.

Lemma verify_follows_save_witness :
  nth_error
    (fst (Client.main Client.accepting "http://localhost:3000" "cat.png" []))
    11 = Some (Client.PostJson "http://localhost:3000/api/verify"
                 Client.manifest)
  /\ exists j,
       S j < 11
       /\ nth_error
            (fst (Client.main Client.accepting "http://localhost:3000"
                    "cat.png" [])) j =
            Some (Client.WriteText "cat_manifest.json" "{...}")
       /\ nth_error
            (fst (Client.main Client.accepting "http://localhost:3000"
                    "cat.png" [])) (S j) =
            Some (Client.CloseWrite "cat_manifest.json").
Proof.
  split; [reflexivity|].
  exact (proj2 (verify_follows_save Client.accepting "http://localhost:3000"
                  "cat.png" 11 "http://localhost:3000/api/verify"
                  Client.manifest eq_refl)).
Defined.

Lemma acts_only_on_success_witness :
  In (Client.PostJson "http://localhost:3000/api/verify" Client.manifest)
    (fst (Client.main Client.accepting "http://localhost:3000" "cat.png" []))
  /\ exists (items : list (string * Client.JSON)) (success : Client.JSON),
       snd (Client.upload_file Client.accepting "http://localhost:3000"
              "cat.png" []) = Client.Ok (Client.JObject items)
       /\ Client.lookup "success" items = Some success
       /\ Client.truthy success = true
       /\ forall data,
            data = match Client.lookup "data" items with
                   | Some d => d
                   | None => Client.JObject []
                   end ->
            Client.manifest = data.
Proof.
  assert (H : In (Client.PostJson "http://localhost:3000/api/verify"
                    Client.manifest)
                (fst (Client.main Client.accepting "http://localhost:3000"
                        "cat.png" []))).
  { cbv. tauto. }
  split; [exact H|].
  exact (acts_only_on_success Client.accepting "http://localhost:3000"
           "cat.png"
           (Client.PostJson "http://localhost:3000/api/verify" Client.manifest)
           H (or_intror eq_refl)).
Defined.
